(** * Resolving an Elasticsearch client configuration from Kubernetes

    A shallow embedding of [internal/utils/k8s.go]: the function
    [ResolveEsConfigFromk8s] reads one Service and two Secrets through a
    controller-runtime client and assembles an [elasticsearch.Config].

    The client is an interface of the Go code; here the function is a
    program over the client's [Get] operation, and a client is a handler
    that answers each [Get] from a state of its own. *)

From Stdlib Require Import ZArith String Ascii List DecimalString.
From stdpp Require Import gmap strings list fin_maps.

Import ListNotations.
Local Open Scope list_scope.

(** ** Go values *)

Module Go.

(** [[]byte]: [None] is the nil slice. *)
Definition bytes : Type := option (list Byte.byte).

(** [[]byte("...")] on a string literal. *)
Definition bytes_of_string (s : string) : bytes :=
  Some (String.list_byte_of_string s).

(** The conversion [string(b)] of a byte slice; the nil slice gives
    the empty string. *)
Definition string_of_bytes (b : bytes) : string :=
  match b with
  | None => ""
  | Some l => String.string_of_list_byte l
  end.

(** [int32], as its value. *)
Definition int32 : Type := Z.

(** [context.Context]: the root context and those derived from a
    parent with a cancel function or a timeout (in nanoseconds). *)
Inductive Context : Type :=
| Background
| WithCancel (parent : Context)
| WithTimeout (parent : Context) (d : Z).

(** Operands of the [fmt] functions, at the types this package passes:
    [string], [int] (a [len]) and [int32] (a port). *)
Inductive fmt_arg : Type :=
| ArgStr (s : string)
| ArgInt (z : Z)
| ArgInt32 (z : int32).

(** The verb [%d] on an integer: decimal digits, [-] for a negative. *)
Definition format_d (z : Z) : string :=
  NilZero.string_of_int (Z.to_int z).

(** What [fmt] prints for a verb that does not fit its operand. *)
Definition bad_verb (v : ascii) (ty val : string) : string :=
  "%!" +:+ String v ("(" +:+ ty +:+ "=" +:+ val +:+ ")").

(** One verb applied to one operand: [%s] on a string and [%d] on an
    integer, the two pairings of this package that are rendered. Its
    third verb, [%q], only occurs in an error message, and error
    messages are kept as format and operands (see [Errorf]). *)
Definition format_verb (v : ascii) (a : fmt_arg) : string :=
  match a with
  | ArgStr s => if Ascii.eqb v "s" then s else bad_verb v "string" s
  | ArgInt z =>
      if Ascii.eqb v "d" then format_d z else bad_verb v "int" (format_d z)
  | ArgInt32 z =>
      if Ascii.eqb v "d" then format_d z else bad_verb v "int32" (format_d z)
  end.

(** [fmt.Sprintf] for the verbs [%s], [%d] and [%%]. *)
Fixpoint Sprintf (format : string) (args : list fmt_arg) : string :=
  match format with
  | EmptyString => ""
  | String c rest =>
      if Ascii.eqb c "%" then
        match rest with
        | EmptyString => "%!(NOVERB)"
        | String v rest' =>
            if Ascii.eqb v "%" then String "%" (Sprintf rest' args)
            else
              match args with
              | [] => "%!" +:+ String v ("(MISSING)" +:+ Sprintf rest' [])
              | a :: args' => format_verb v a +:+ Sprintf rest' args'
              end
        end
      else String c (Sprintf rest args)
  end.

End Go.

Import Go.

(** ** Kubernetes objects

    The fields of [corev1.Service] and [corev1.Secret] that the package
    reads, nested as in the Go types. *)

Module corev1.

Record ServicePort : Type := {
  Name : string;
  Port : int32;
}.

Record ServiceSpec : Type := {
  Ports : list ServicePort;
  ClusterIP : string;
}.

Record LoadBalancerIngress : Type := {
  IP : string;
  Hostname : string;
}.

Record LoadBalancerStatus : Type := {
  Ingress : list LoadBalancerIngress;
}.

Record ServiceStatus : Type := {
  LoadBalancer : LoadBalancerStatus;
}.

Record Service : Type := {
  Spec : ServiceSpec;
  Status : ServiceStatus;
}.

(** [Data] is a [map[string][]byte]; a nil map and an empty one read
    the same. *)
Record Secret : Type := {
  Data : gmap string bytes;
}.

(** [var service corev1.Service] and [var secret corev1.Secret]. *)
Definition zeroServicePort : ServicePort := {| Name := ""; Port := 0%Z |}.

Definition zeroService : Service :=
  {| Spec := {| Ports := []; ClusterIP := "" |};
     Status := {| LoadBalancer := {| Ingress := [] |} |} |}.

Definition zeroLoadBalancerIngress : LoadBalancerIngress :=
  {| IP := ""; Hostname := "" |}.

Definition zeroSecret : Secret := {| Data := ∅ |}.

End corev1.

Module types.

Record NamespacedName : Type := {
  Namespace : string;
  Name : string;
}.

End types.

(** ** Errors *)

(** The kind of object a [Get] asks for, given in Go by the type of the
    object passed in. *)
Inductive Kind : Type := KService | KSecret.

(** Go [error] values: those made by this package with [fmt.Errorf],
    kept as format and operands, and those handed back by the client. *)
Inductive error : Type :=
| Errorf (format : string) (args : list fmt_arg)
| NotFound (kind : Kind) (name : string)
| ClientError (msg : string).

(** The spec's names for the three errors the package makes itself. *)
Definition InvalidShape (nports : nat) : error :=
  Errorf "not exactly 1 port: %d" [ArgInt (Z.of_nat nports)].

Definition MissingAddress : error :=
  Errorf "service IP not found" [].

Definition MissingEntry (secretName : string) : error :=
  Errorf "no 'elastic' entry in Secret %q" [ArgStr secretName].

(** ** The configuration *)

Module elasticsearch.

(** The fields of [elasticsearch.Config] the package writes; the
    others keep their zero value throughout. *)
Record Config : Type := {
  Addresses : list string;
  Username : string;
  Password : string;
  CACert : bytes;
}.

(** [elasticsearch.Config{}] *)
Definition zeroConfig : Config :=
  {| Addresses := []; Username := ""; Password := ""; CACert := None |}.

Definition set_Username (c : Config) (u : string) : Config :=
  {| Addresses := Addresses c; Username := u;
     Password := Password c; CACert := CACert c |}.

Definition set_Password (c : Config) (p : string) : Config :=
  {| Addresses := Addresses c; Username := Username c;
     Password := p; CACert := CACert c |}.

Definition set_CACert (c : Config) (b : bytes) : Config :=
  {| Addresses := Addresses c; Username := Username c;
     Password := Password c; CACert := b |}.

Definition set_Addresses (c : Config) (a : list string) : Config :=
  {| Addresses := a; Username := Username c;
     Password := Password c; CACert := CACert c |}.

End elasticsearch.

(** ** The client interface

    [client.Client] is a Go interface; the package only calls its [Get],
    at two object types. A program is the tree of the [Get] calls a
    function makes, each with the context, the key and the object it is
    given; the object is an in-out parameter, so the answer to a call is
    the object as the client left it, and the error. *)

Module client.

Inductive prog (R : Type) : Type :=
| Ret (r : R)
| GetService (ctx : Context) (key : types.NamespacedName)
    (obj : corev1.Service)
    (k : corev1.Service -> option error -> prog R)
| GetSecret (ctx : Context) (key : types.NamespacedName)
    (obj : corev1.Secret)
    (k : corev1.Secret -> option error -> prog R).

Arguments Ret {R} r.
Arguments GetService {R} ctx key obj k.
Arguments GetSecret {R} ctx key obj k.

Fixpoint bind {A B : Type} (m : prog A) (f : A -> prog B) : prog B :=
  match m with
  | Ret a => f a
  | GetService ctx key obj k =>
      GetService ctx key obj (fun o e => bind (k o e) f)
  | GetSecret ctx key obj k =>
      GetSecret ctx key obj (fun o e => bind (k o e) f)
  end.

#[export] Instance prog_ret : MRet prog := @Ret.
#[export] Instance prog_bind : MBind prog := fun A B f m => bind m f.

(** [k8sClient.Get(ctx, key, &service)] and
    [k8sClient.Get(ctx, key, &secret)] as single steps. *)
Definition Get_Service (ctx : Context) (key : types.NamespacedName)
    (obj : corev1.Service) : prog (corev1.Service * option error) :=
  GetService ctx key obj (fun o e => Ret (o, e)).

Definition Get_Secret (ctx : Context) (key : types.NamespacedName)
    (obj : corev1.Secret) : prog (corev1.Secret * option error) :=
  GetSecret ctx key obj (fun o e => Ret (o, e)).

(** An implementation of the interface over a state of type [S]. *)
Record Client (S : Type) : Type := {
  getService :
    Context -> types.NamespacedName -> corev1.Service -> S ->
    corev1.Service * option error * S;
  getSecret :
    Context -> types.NamespacedName -> corev1.Secret -> S ->
    corev1.Secret * option error * S;
}.

Arguments getService {S} c ctx key obj s.
Arguments getSecret {S} c ctx key obj s.

(** What the client saw of one call. *)
Record Call : Type := {
  call_ctx : Context;
  call_key : types.NamespacedName;
  call_kind : Kind;
}.

Record Outcome (S R : Type) : Type := {
  result : R;
  final : S;
  trace : list Call;
}.

Arguments result {S R} o.
Arguments final {S R} o.
Arguments trace {S R} o.

Definition logged {S R : Type} (c : Call) (o : Outcome S R) : Outcome S R :=
  {| result := result o; final := final o; trace := c :: trace o |}.

(** Running a program against a client, from the client's state [s];
    the calls are logged in the order they are made. *)
Fixpoint run {S R : Type} (c : Client S) (p : prog R) (s : S)
  : Outcome S R :=
  match p with
  | Ret r => {| result := r; final := s; trace := [] |}
  | GetService ctx key obj k =>
      let '(o, e, s') := getService c ctx key obj s in
      logged {| call_ctx := ctx; call_key := key; call_kind := KService |}
             (run c (k o e) s')
  | GetSecret ctx key obj k =>
      let '(o, e, s') := getSecret c ctx key obj s in
      logged {| call_ctx := ctx; call_key := key; call_kind := KSecret |}
             (run c (k o e) s')
  end.

End client.

Import client.

(** ** internal/utils/k8s.go *)

Module utils.

(** [ResolveEsConfigFromk8s] (lines 22-70), statement by statement. Each
    [return elasticsearch.Config{}, err] ends the program where it
    stands. [Ports[0]] and [ingress[0]] are read only behind the tests
    [len(...) != 1] and [len(...) == 1], so the indices are in range.
    The variable [secret] is declared once and passed to both secret
    fetches: the second one receives it as the first one left it. *)
Definition ResolveEsConfigFromk8s (namespace name : string)
  : prog (elasticsearch.Config * option error) :=
  let esCfg := elasticsearch.zeroConfig in
  let service := corev1.zeroService in
  let svcName := Sprintf "%s-es-http" [ArgStr name] in
  '(service, err) ←
    Get_Service Background
      {| types.Namespace := namespace; types.Name := svcName |} service;
  match err with
  | Some err => mret (elasticsearch.zeroConfig, Some err)
  | None =>
  let ports := corev1.Ports (corev1.Spec service) in
  if negb (length ports =? 1)%nat then
    mret (elasticsearch.zeroConfig,
          Some (Errorf "not exactly 1 port: %d"
                       [ArgInt (Z.of_nat (length ports))]))
  else
  let protocol := corev1.Name (nth 0 ports corev1.zeroServicePort) in
  let port := corev1.Port (nth 0 ports corev1.zeroServicePort) in
  let ip := corev1.ClusterIP (corev1.Spec service) in
  let ingress :=
    corev1.Ingress (corev1.LoadBalancer (corev1.Status service)) in
  let ip :=
    if (length ingress =? 1)%nat
    then corev1.IP (nth 0 ingress corev1.zeroLoadBalancerIngress)
    else ip in
  if String.eqb ip "" then
    mret (elasticsearch.zeroConfig, Some (Errorf "service IP not found" []))
  else
  let secret := corev1.zeroSecret in
  let secretName := Sprintf "%s-es-elastic-user" [ArgStr name] in
  '(secret, err) ←
    Get_Secret Background
      {| types.Namespace := namespace; types.Name := secretName |} secret;
  match err with
  | Some err => mret (elasticsearch.zeroConfig, Some err)
  | None =>
  let esCfg := elasticsearch.set_Username esCfg "elastic" in
  match corev1.Data secret !! elasticsearch.Username esCfg with
  | None =>
      mret (elasticsearch.zeroConfig,
            Some (Errorf "no 'elastic' entry in Secret %q"
                         [ArgStr secretName]))
  | Some password =>
  let esCfg := elasticsearch.set_Password esCfg (string_of_bytes password) in
  let secretName := Sprintf "%s-es-http-certs-public" [ArgStr name] in
  '(secret, err) ←
    Get_Secret Background
      {| types.Namespace := namespace; types.Name := secretName |} secret;
  match err with
  | Some err => mret (elasticsearch.zeroConfig, Some err)
  | None =>
  let esCfg :=
    match corev1.Data secret !! "ca.crt" with
    | Some caCert => elasticsearch.set_CACert esCfg caCert
    | None => esCfg
    end in
  let esCfg :=
    elasticsearch.set_Addresses esCfg
      [Sprintf "%s://%s:%d" [ArgStr protocol; ArgStr ip; ArgInt32 port]] in
  mret (esCfg, None)
  end end end end.

End utils.

(** ** A directory of objects *)

Module directory.

Definition key : Type := (string * string)%type.

Definition key_of (k : types.NamespacedName) : key :=
  (types.Namespace k, types.Name k).

(** The objects of each kind, by namespace and name. *)
Record Directory : Type := {
  services : gmap key corev1.Service;
  secrets : gmap key corev1.Secret;
}.

Definition empty : Directory := {| services := ∅; secrets := ∅ |}.

Definition withService (namespace name : string) (o : corev1.Service)
    (d : Directory) : Directory :=
  {| services := <[(namespace, name) := o]> (services d);
     secrets := secrets d |}.

Definition withSecret (namespace name : string) (o : corev1.Secret)
    (d : Directory) : Directory :=
  {| services := services d;
     secrets := <[(namespace, name) := o]> (secrets d) |}.

(** Modelled from the spec: the Directory Client, an external
    collaborator of the package (controller-runtime's client, and its
    fake in the test). Spec section 2: it can "fetch a named,
    namespaced resource of a known kind, returning either the resource
    or a not-found error"; section 4.1: the fetches are read-only. A hit
    overwrites the object passed in; a miss leaves it as it was. The
    context is not consulted. *)
Definition dirClient : Client Directory :=
  {| getService := fun _ k obj d =>
       match services d !! key_of k with
       | Some o => (o, None, d)
       | None => (obj, Some (NotFound KService (types.Name k)), d)
       end;
     getSecret := fun _ k obj d =>
       match secrets d !! key_of k with
       | Some o => (o, None, d)
       | None => (obj, Some (NotFound KSecret (types.Name k)), d)
       end |}.

(** [ResolveEsConfigFromk8s(k8sClient, namespace, name)] with
    [k8sClient] a client over the directory [d]. *)
Definition Resolve (d : Directory) (namespace name : string)
  : Outcome Directory (elasticsearch.Config * option error) :=
  run dirClient (utils.ResolveEsConfigFromk8s namespace name) d.

End directory.

Import directory.

(** ** The objects of the test, [Test_ResolveEsConfigFromk8s]

    The secrets' values are those of the scenarios of spec section 8. *)

Module fixtures.

Definition svc : corev1.Service :=
  {| corev1.Spec :=
       {| corev1.Ports := [{| corev1.Name := "http"; corev1.Port := 9200%Z |}];
          corev1.ClusterIP := "127.0.0.1" |};
     corev1.Status :=
       {| corev1.LoadBalancer := {| corev1.Ingress := [] |} |} |}.

Definition userSecret : corev1.Secret :=
  {| corev1.Data := {[ "elastic" := bytes_of_string "secretpw" ]} |}.

Definition invalidUserSecret : corev1.Secret :=
  {| corev1.Data := {[ "badEntry" := bytes_of_string "x" ]} |}.

Definition certsSecret : corev1.Secret := corev1.zeroSecret.

(** The "happy path" case: [svc], [userSecret] and [certsSecret], each
    under the namespace and name of its [ObjectMeta]. *)
Definition happy : Directory :=
  withSecret "ns-a" "cluster-a-es-http-certs-public" certsSecret
    (withSecret "ns-a" "cluster-a-es-elastic-user" userSecret
       (withService "ns-a" "cluster-a-es-http" svc empty)).

(** "missing service" *)
Definition missingService : Directory :=
  withSecret "ns-a" "cluster-a-es-elastic-user" userSecret empty.

(** "missing user secret" *)
Definition missingUserSecret : Directory :=
  withService "ns-a" "cluster-a-es-http" svc empty.

(** "invalid user secret" *)
Definition invalidUser : Directory :=
  withSecret "ns-a" "cluster-a-es-elastic-user" invalidUserSecret
    (withService "ns-a" "cluster-a-es-http" svc empty).

End fixtures.

(** ** Further directories *)

Module scenarios.

Definition twoPorts : corev1.Service :=
  {| corev1.Spec :=
       {| corev1.Ports := [{| corev1.Name := "http"; corev1.Port := 9200%Z |};
                           {| corev1.Name := "transport"; corev1.Port := 9300%Z |}];
          corev1.ClusterIP := "127.0.0.1" |};
     corev1.Status := {| corev1.LoadBalancer := {| corev1.Ingress := [] |} |} |}.

Definition oneIngress : corev1.Service :=
  {| corev1.Spec :=
       {| corev1.Ports := [{| corev1.Name := "https"; corev1.Port := 9200%Z |}];
          corev1.ClusterIP := "10.0.0.1" |};
     corev1.Status :=
       {| corev1.LoadBalancer :=
            {| corev1.Ingress :=
                 [{| corev1.IP := "34.1.2.3"; corev1.Hostname := "" |}] |} |} |}.

Definition hostnameIngress : corev1.Service :=
  {| corev1.Spec :=
       {| corev1.Ports := [{| corev1.Name := "https"; corev1.Port := 9200%Z |}];
          corev1.ClusterIP := "10.0.0.1" |};
     corev1.Status :=
       {| corev1.LoadBalancer :=
            {| corev1.Ingress :=
                 [{| corev1.IP := ""; corev1.Hostname := "lb.example.com" |}] |} |} |}.

Definition unnamedPort : corev1.Service :=
  {| corev1.Spec :=
       {| corev1.Ports := [{| corev1.Name := ""; corev1.Port := 9200%Z |}];
          corev1.ClusterIP := "127.0.0.1" |};
     corev1.Status := {| corev1.LoadBalancer := {| corev1.Ingress := [] |} |} |}.

(** The happy-path directory with another service in place of [svc]. *)
Definition withEndpoint (o : corev1.Service) : Directory :=
  withService "ns-a" "cluster-a-es-http" o fixtures.happy.

End scenarios.

(** ** Names, calls and the address rule *)

(** The three derived names (spec section 6). *)
Definition endpointName (name : string) : string := name +:+ "-es-http".
Definition credentialName (name : string) : string := name +:+ "-es-elastic-user".
Definition trustName (name : string) : string := name +:+ "-es-http-certs-public".

Definition nsName (namespace name : string) : types.NamespacedName :=
  {| types.Namespace := namespace; types.Name := name |}.

(** The three fetches, as the client sees them. *)
Definition endpointCall (namespace name : string) : Call :=
  {| call_ctx := Background;
     call_key := nsName namespace (endpointName name);
     call_kind := KService |}.

Definition credentialCall (namespace name : string) : Call :=
  {| call_ctx := Background;
     call_key := nsName namespace (credentialName name);
     call_kind := KSecret |}.

Definition trustCall (namespace name : string) : Call :=
  {| call_ctx := Background;
     call_key := nsName namespace (trustName name);
     call_kind := KSecret |}.

(** The address rule in the words of spec section 4.1, step 3: the
    ingress address when there is exactly one, the internal address
    otherwise. *)
Definition selectedAddress (svc : corev1.Service) : string :=
  match corev1.Ingress (corev1.LoadBalancer (corev1.Status svc)) with
  | [i] => corev1.IP i
  | _ => corev1.ClusterIP (corev1.Spec svc)
  end.

(** [protocol://address:port], step 8. *)
Definition composeAddress (protocol host : string) (port : int32) : string :=
  protocol +:+ "://" +:+ host +:+ ":" +:+ format_d port.

(** The configuration of a successful resolution. *)
Definition resolved (p : corev1.ServicePort) (host : string)
    (password : bytes) (trust : corev1.Secret) : elasticsearch.Config :=
  {| elasticsearch.Addresses :=
       [composeAddress (corev1.Name p) host (corev1.Port p)];
     elasticsearch.Username := "elastic";
     elasticsearch.Password := string_of_bytes password;
     elasticsearch.CACert :=
       match corev1.Data trust !! "ca.crt" with
       | Some caCert => caCert
       | None => None
       end |}.

Definition outcome {S : Type} (cfg : elasticsearch.Config)
    (err : option error) (s : S) (calls : list Call)
  : Outcome S (elasticsearch.Config * option error) :=
  {| result := (cfg, err); final := s; trace := calls |}.

Definition failure {S : Type} (e : error) (s : S) (calls : list Call)
  : Outcome S (elasticsearch.Config * option error) :=
  outcome elasticsearch.zeroConfig (Some e) s calls.

(** ** Where a run stops

    The seven ways a resolution ends, each with what the client answered
    on the way: the six failing steps of spec section 4.1 and the
    success. *)

Section Stops.

Context {S : Type} (c : Client S).
Variables (namespace name : string) (s : S).

Inductive stops
  : Outcome S (elasticsearch.Config * option error) -> Prop :=
| stop_endpoint o e s1 :
    getService c Background (nsName namespace (endpointName name)) corev1.zeroService s = (o, Some e, s1) ->
    stops (failure e s1 [endpointCall namespace name])
| stop_shape svc s1 :
    getService c Background (nsName namespace (endpointName name)) corev1.zeroService s = (svc, None, s1) ->
    length (corev1.Ports (corev1.Spec svc)) <> 1 ->
    stops (failure (InvalidShape (length (corev1.Ports (corev1.Spec svc)))) s1 [endpointCall namespace name])
| stop_address svc s1 p :
    getService c Background (nsName namespace (endpointName name)) corev1.zeroService s = (svc, None, s1) ->
    corev1.Ports (corev1.Spec svc) = [p] ->
    selectedAddress svc = "" ->
    stops (failure MissingAddress s1 [endpointCall namespace name])
| stop_credential svc s1 p o e s2 :
    getService c Background (nsName namespace (endpointName name)) corev1.zeroService s = (svc, None, s1) ->
    corev1.Ports (corev1.Spec svc) = [p] ->
    selectedAddress svc <> "" ->
    getSecret c Background (nsName namespace (credentialName name)) corev1.zeroSecret s1 = (o, Some e, s2) ->
    stops (failure e s2 [endpointCall namespace name; credentialCall namespace name])
| stop_entry svc s1 p cred s2 :
    getService c Background (nsName namespace (endpointName name)) corev1.zeroService s = (svc, None, s1) ->
    corev1.Ports (corev1.Spec svc) = [p] ->
    selectedAddress svc <> "" ->
    getSecret c Background (nsName namespace (credentialName name)) corev1.zeroSecret s1 = (cred, None, s2) ->
    corev1.Data cred !! "elastic" = None ->
    stops (failure (MissingEntry (credentialName name)) s2 [endpointCall namespace name; credentialCall namespace name])
| stop_trust svc s1 p cred s2 pw o e s3 :
    getService c Background (nsName namespace (endpointName name)) corev1.zeroService s = (svc, None, s1) ->
    corev1.Ports (corev1.Spec svc) = [p] ->
    selectedAddress svc <> "" ->
    getSecret c Background (nsName namespace (credentialName name)) corev1.zeroSecret s1 = (cred, None, s2) ->
    corev1.Data cred !! "elastic" = Some pw ->
    getSecret c Background (nsName namespace (trustName name)) cred s2 = (o, Some e, s3) ->
    stops (failure e s3 [endpointCall namespace name; credentialCall namespace name; trustCall namespace name])
| stop_done svc s1 p cred s2 pw trust s3 :
    getService c Background (nsName namespace (endpointName name)) corev1.zeroService s = (svc, None, s1) ->
    corev1.Ports (corev1.Spec svc) = [p] ->
    selectedAddress svc <> "" ->
    getSecret c Background (nsName namespace (credentialName name)) corev1.zeroSecret s1 = (cred, None, s2) ->
    corev1.Data cred !! "elastic" = Some pw ->
    getSecret c Background (nsName namespace (trustName name)) cred s2 = (trust, None, s3) ->
    stops (outcome (resolved p (selectedAddress svc) pw trust) None s3 [endpointCall namespace name; credentialCall namespace name; trustCall namespace name]).

End Stops.

Arguments stops {S} c namespace name s _.

(** Two calls in a row on the same client. *)
Definition ResolveTwice (namespace name : string)
  : prog ((elasticsearch.Config * option error)
          * (elasticsearch.Config * option error)) :=
  r1 ← utils.ResolveEsConfigFromk8s namespace name;
  r2 ← utils.ResolveEsConfigFromk8s namespace name;
  mret (r1, r2).

(** The reading of "the caller's context is the context of every fetch":
    each call of an outcome carries the context [callerCtx]. *)
Definition forwardsContext {S R : Type} (callerCtx : Context)
    (o : Outcome S R) : Prop :=
  Forall (fun call => call_ctx call = callerCtx) (trace o).

(** ** NewK8sClient

    The second function of [internal/utils/k8s.go] builds the client. It
    talks to four things outside the package: the process environment
    ([os.Setenv]), the kubeconfig loader ([config.GetConfig]), the client
    constructor ([client.New]) and the new client itself ([c.List]). As
    for [Get] above, the function is the tree of these calls, and a host
    answers them from a state of its own. *)

Module boot.

(** [k8s.io/client-go/kubernetes/scheme.Scheme], the one scheme the
    package names. *)
Inductive SchemeRef : Type := scheme_Scheme.

(** [client.Options], with the field the package sets; a nil [Scheme] is
    [None]. *)
Record Options : Type := {
  Scheme : option SchemeRef;
}.

(** How a call of the function ends: with its results, or in the run-time
    panic of a method call on a nil interface value. *)
Inductive exit (R : Type) : Type :=
| Returned (r : R)
| Panicked.

Arguments Returned {R} r.
Arguments Panicked {R}.

Section Programs.

(** [RestConfig]: the values of [*rest.Config]; [K]: the non-nil values
    of [client.Client], so that [option K] is the interface type. *)
Variables RestConfig K : Type.

Inductive prog (R : Type) : Type :=
| Ret (r : R)
| Panic
| Setenv (key value : string) (k : option error -> prog R)
| GetConfig (k : RestConfig -> option error -> prog R)
| New (config : RestConfig) (options : Options)
    (k : option K -> option error -> prog R)
| ListSecrets (c : K) (ctx : Context)
    (k : list corev1.Secret -> option error -> prog R).

Arguments Ret {R} r.
Arguments Panic {R}.
Arguments Setenv {R} key value k.
Arguments GetConfig {R} k.
Arguments New {R} config options k.
Arguments ListSecrets {R} c ctx k.

(** [NewK8sClient] (lines 72-96). [secrets] is a [corev1.SecretList]
    filled by [List] and not read afterwards. [c.List] on a nil [c]
    panics. *)
Definition NewK8sClient (kubeconfigPath : string)
  : prog (option K * option error) :=
  Setenv "KUBECONFIG" kubeconfigPath (fun err =>
  match err with
  | Some err => Ret (None, Some err)
  | None =>
  GetConfig (fun clientCfg err =>
  match err with
  | Some err => Ret (None, Some err)
  | None =>
  New clientCfg {| Scheme := Some scheme_Scheme |} (fun c err =>
  match err with
  | Some err => Ret (None, Some err)
  | None =>
  match c with
  | None => Panic
  | Some c' =>
  ListSecrets c' Background (fun secrets err =>
  match err with
  | Some err => Ret (None, Some err)
  | None => Ret (c, None)
  end)
  end end) end) end).

(** What the outside saw of one call. *)
Inductive Event : Type :=
| EvSetenv (key value : string)
| EvGetConfig
| EvNew (config : RestConfig) (options : Options)
| EvList (c : K) (ctx : Context).

(** The outside, over a state of type [S]. *)
Record Host (S : Type) : Type := {
  setenv : string -> string -> S -> option error * S;
  getConfig : S -> RestConfig * option error * S;
  new : RestConfig -> Options -> S -> option K * option error * S;
  listSecrets : K -> Context -> S -> list corev1.Secret * option error * S;
}.

Arguments setenv {S} h key value s.
Arguments getConfig {S} h s.
Arguments new {S} h config options s.
Arguments listSecrets {S} h c ctx s.

Record Outcome (S R : Type) : Type := {
  result : exit R;
  final : S;
  events : list Event;
}.

Arguments result {S R} o.
Arguments final {S R} o.
Arguments events {S R} o.

Definition logged {S R : Type} (e : Event) (o : Outcome S R) : Outcome S R :=
  {| result := result o; final := final o; events := e :: events o |}.

Fixpoint run {S R : Type} (h : Host S) (p : prog R) (s : S) : Outcome S R :=
  match p with
  | Ret r => {| result := Returned r; final := s; events := [] |}
  | Panic => {| result := Panicked; final := s; events := [] |}
  | Setenv key value k =>
      let '(e, s') := setenv h key value s in
      logged (EvSetenv key value) (run h (k e) s')
  | GetConfig k =>
      let '(cfg, e, s') := getConfig h s in
      logged EvGetConfig (run h (k cfg e) s')
  | New config options k =>
      let '(c, e, s') := new h config options s in
      logged (EvNew config options) (run h (k c e) s')
  | ListSecrets c ctx k =>
      let '(l, e, s') := listSecrets h c ctx s in
      logged (EvList c ctx) (run h (k l e) s')
  end.

(** The four calls of a complete run, in order. *)
Definition fullEvents (kubeconfigPath : string) (cfg : RestConfig) (c : K)
  : list Event :=
  [EvSetenv "KUBECONFIG" kubeconfigPath; EvGetConfig;
   EvNew cfg {| Scheme := Some scheme_Scheme |}; EvList c Background].

End Programs.

Arguments Ret {RestConfig K R} r.
Arguments Panic {RestConfig K R}.
Arguments Setenv {RestConfig K R} key value k.
Arguments GetConfig {RestConfig K R} k.
Arguments New {RestConfig K R} config options k.
Arguments ListSecrets {RestConfig K R} c ctx k.
Arguments NewK8sClient {RestConfig K} kubeconfigPath.
Arguments EvSetenv {RestConfig K} key value.
Arguments EvGetConfig {RestConfig K}.
Arguments EvNew {RestConfig K} config options.
Arguments EvList {RestConfig K} c ctx.
Arguments setenv {RestConfig K S} h key value s.
Arguments getConfig {RestConfig K S} h s.
Arguments new {RestConfig K S} h config options s.
Arguments listSecrets {RestConfig K S} h c ctx s.
Arguments result {RestConfig K S R} o.
Arguments final {RestConfig K S R} o.
Arguments events {RestConfig K S R} o.
Arguments run {RestConfig K S R} h p s.
Arguments fullEvents {RestConfig K} kubeconfigPath cfg c.

(** The six ways a call of [NewK8sClient] ends, each with what the host
    answered on the way. *)
Inductive ends {RestConfig K S : Type} (h : Host RestConfig K S)
    (kubeconfigPath : string) (s : S)
  : Outcome RestConfig K S (option K * option error) -> Prop :=
| end_setenv e s1 :
    setenv h "KUBECONFIG" kubeconfigPath s = (Some e, s1) ->
    ends h kubeconfigPath s
      {| result := Returned (None, Some e); final := s1;
         events := [EvSetenv "KUBECONFIG" kubeconfigPath] |}
| end_getConfig s1 cfg e s2 :
    setenv h "KUBECONFIG" kubeconfigPath s = (None, s1) ->
    getConfig h s1 = (cfg, Some e, s2) ->
    ends h kubeconfigPath s
      {| result := Returned (None, Some e); final := s2;
         events := [EvSetenv "KUBECONFIG" kubeconfigPath; EvGetConfig] |}
| end_new s1 cfg s2 c e s3 :
    setenv h "KUBECONFIG" kubeconfigPath s = (None, s1) ->
    getConfig h s1 = (cfg, None, s2) ->
    new h cfg {| Scheme := Some scheme_Scheme |} s2 = (c, Some e, s3) ->
    ends h kubeconfigPath s
      {| result := Returned (None, Some e); final := s3;
         events := [EvSetenv "KUBECONFIG" kubeconfigPath; EvGetConfig;
                    EvNew cfg {| Scheme := Some scheme_Scheme |}] |}
| end_panic s1 cfg s2 s3 :
    setenv h "KUBECONFIG" kubeconfigPath s = (None, s1) ->
    getConfig h s1 = (cfg, None, s2) ->
    new h cfg {| Scheme := Some scheme_Scheme |} s2 = (None, None, s3) ->
    ends h kubeconfigPath s
      {| result := Panicked; final := s3;
         events := [EvSetenv "KUBECONFIG" kubeconfigPath; EvGetConfig;
                    EvNew cfg {| Scheme := Some scheme_Scheme |}] |}
| end_list s1 cfg s2 c s3 l e s4 :
    setenv h "KUBECONFIG" kubeconfigPath s = (None, s1) ->
    getConfig h s1 = (cfg, None, s2) ->
    new h cfg {| Scheme := Some scheme_Scheme |} s2 = (Some c, None, s3) ->
    listSecrets h c Background s3 = (l, Some e, s4) ->
    ends h kubeconfigPath s
      {| result := Returned (None, Some e); final := s4;
         events := fullEvents kubeconfigPath cfg c |}
| end_done s1 cfg s2 c s3 l s4 :
    setenv h "KUBECONFIG" kubeconfigPath s = (None, s1) ->
    getConfig h s1 = (cfg, None, s2) ->
    new h cfg {| Scheme := Some scheme_Scheme |} s2 = (Some c, None, s3) ->
    listSecrets h c Background s3 = (l, None, s4) ->
    ends h kubeconfigPath s
      {| result := Returned (Some c, None); final := s4;
         events := fullEvents kubeconfigPath cfg c |}.

(** A host for examples: kubeconfig files by path, each naming a
    cluster that is reachable or not. The state is the environment
    variable [KUBECONFIG]; a config is the path it was loaded from, a
    client the path it was built for. *)
Definition exampleHost (files : gmap string bool)
  : Host string string (option string) :=
  {| setenv := fun key value env =>
       if String.eqb key "KUBECONFIG" then (None, Some value)
       else (Some (ClientError "setenv"), env);
     getConfig := fun env =>
       match env with
       | Some path =>
           match files !! path with
           | Some _ => (path, None, env)
           | None => (path, Some (ClientError "no such file"), env)
           end
       | None => ("", Some (ClientError "no configuration"), env)
       end;
     new := fun config _ env => (Some config, None, env);
     listSecrets := fun c _ env =>
       match files !! c with
       | Some true => ([], None, env)
       | _ => ([], Some (ClientError "unreachable"), env)
       end |}.

(** One kubeconfig of a reachable cluster, one of a cluster that is
    down. *)
Definition exampleFiles : gmap string bool :=
  {[ "/kube/good" := true; "/kube/down" := false ]}.

End boot.

(** ** The table of [Test_ResolveEsConfigFromk8s]

    Each row: its name, the directory built from [initObjs], and
    [wantErr]. *)
Definition tests : list (string * Directory * bool) :=
  [("happy path", fixtures.happy, false);
   ("missing service", fixtures.missingService, true);
   ("missing user secret", fixtures.missingUserSecret, true);
   ("invalid user secret", fixtures.invalidUser, true)].

(** The test's check of one row, [(err != nil) != tt.wantErr] being a
    failure. *)
Definition rowPasses (row : string * Directory * bool) : bool :=
  let '(_, d, wantErr) := row in
  let err := snd (result (Resolve d "ns-a" "cluster-a")) in
  Bool.eqb (match err with Some _ => true | None => false end) wantErr.

(** The last character of a string. *)
Fixpoint lastChar (s : string) : option ascii :=
  match s with
  | EmptyString => None
  | String a EmptyString => Some a
  | String _ s' => lastChar s'
  end.

(** * Properties *)

Example format_d_9200 : format_d 9200 = "9200".
Proof. reflexivity. Qed.

Example format_d_zero : format_d 0 = "0".
Proof. reflexivity. Qed.

Example format_d_neg : format_d (-17) = "-17".
Proof. reflexivity. Qed.

Example Sprintf_addr :
  Sprintf "%s://%s:%d" [ArgStr "http"; ArgStr "127.0.0.1"; ArgInt32 9200%Z]
  = "http://127.0.0.1:9200".
Proof. reflexivity. Qed.

Lemma Sprintf_endpointName name :
  Sprintf "%s-es-http" [ArgStr name] = endpointName name.
Proof. reflexivity. Qed.

Lemma Sprintf_credentialName name :
  Sprintf "%s-es-elastic-user" [ArgStr name] = credentialName name.
Proof. reflexivity. Qed.

Lemma Sprintf_trustName name :
  Sprintf "%s-es-http-certs-public" [ArgStr name] = trustName name.
Proof. reflexivity. Qed.

Lemma append_empty_r (t : string) : t +:+ "" = t.
Proof.
  induction t as [|a t IH]; [reflexivity|].
  change (String a t +:+ "") with (String a (t +:+ "")).
  now rewrite IH.
Qed.

Lemma Sprintf_address protocol host port :
  Sprintf "%s://%s:%d" [ArgStr protocol; ArgStr host; ArgInt32 port]
  = composeAddress protocol host port.
Proof.
  change (Sprintf "%s://%s:%d" [ArgStr protocol; ArgStr host; ArgInt32 port])
    with (protocol +:+ "://" +:+ host +:+ ":" +:+ (format_d port +:+ "")).
  now rewrite append_empty_r.
Qed.

(** The address the code settles on, [ip] after line 40 of the source,
    is the one the rule selects. *)
Lemma ip_selectedAddress (svc : corev1.Service) :
  (if (length (corev1.Ingress (corev1.LoadBalancer (corev1.Status svc))) =? 1)%nat
   then corev1.IP (nth 0 (corev1.Ingress (corev1.LoadBalancer (corev1.Status svc)))
                     corev1.zeroLoadBalancerIngress)
   else corev1.ClusterIP (corev1.Spec svc))
  = selectedAddress svc.
Proof.
  unfold selectedAddress.
  destruct (corev1.Ingress (corev1.LoadBalancer (corev1.Status svc)))
    as [|i [|i' l]]; reflexivity.
Qed.

Lemma single_port (svc : corev1.Service) (p : corev1.ServicePort) :
  corev1.Ports (corev1.Spec svc) = [p] ->
  (length (corev1.Ports (corev1.Spec svc)) =? 1)%nat = true
  /\ nth 0 (corev1.Ports (corev1.Spec svc)) corev1.zeroServicePort = p.
Proof. intros ->. split; reflexivity. Qed.

Ltac resolve_unfold :=
  unfold utils.ResolveEsConfigFromk8s, failure, outcome,
    endpointCall, credentialCall, trustCall, nsName in *;
  cbn -[Nat.eqb String.eqb nth length Sprintf];
  rewrite ?Sprintf_endpointName, ?Sprintf_credentialName, ?Sprintf_trustName.

Ltac resolve_port Hp :=
  destruct (single_port _ _ Hp) as [-> ->];
  cbn -[Nat.eqb String.eqb nth length Sprintf];
  rewrite ?ip_selectedAddress, ?Sprintf_address.

Section AnyClient.

Context {S : Type} (c : Client S).
Variables namespace name : string.

Local Abbreviation Resolve :=
  (run c (utils.ResolveEsConfigFromk8s namespace name)).
Local Abbreviation endpointKey := (nsName namespace (endpointName name)).
Local Abbreviation credentialKey := (nsName namespace (credentialName name)).
Local Abbreviation trustKey := (nsName namespace (trustName name)).

(** Step 1 fails: the endpoint fetch returns an error. *)
Lemma run_endpoint_error s o e s1 :
  getService c Background endpointKey corev1.zeroService s = (o, Some e, s1) ->
  Resolve s = failure e s1 [endpointCall namespace name].
Proof. intros H. resolve_unfold. now rewrite H. Qed.

(** Step 2 fails: the port count is not 1. *)
Lemma run_invalid_shape s svc s1 :
  getService c Background endpointKey corev1.zeroService s = (svc, None, s1) ->
  length (corev1.Ports (corev1.Spec svc)) <> 1 ->
  Resolve s = failure (InvalidShape (length (corev1.Ports (corev1.Spec svc))))
                s1 [endpointCall namespace name].
Proof.
  intros H Hn. resolve_unfold. rewrite H.
  cbn -[Nat.eqb String.eqb nth length Sprintf].
  destruct (Nat.eqb_spec (length (corev1.Ports (corev1.Spec svc))) 1);
    [contradiction | reflexivity].
Qed.

(** Step 3 fails: the selected address is empty. *)
Lemma run_missing_address s svc s1 p :
  getService c Background endpointKey corev1.zeroService s = (svc, None, s1) ->
  corev1.Ports (corev1.Spec svc) = [p] ->
  selectedAddress svc = "" ->
  Resolve s = failure MissingAddress s1 [endpointCall namespace name].
Proof.
  intros H Hp Hip. resolve_unfold. rewrite H.
  resolve_port Hp. rewrite Hip. reflexivity.
Qed.

Section EndpointOk.

Variables (s s1 : S) (svc : corev1.Service) (p : corev1.ServicePort).
Hypothesis Hsvc :
  getService c Background endpointKey corev1.zeroService s = (svc, None, s1).
Hypothesis Hp : corev1.Ports (corev1.Spec svc) = [p].
Hypothesis Hip : selectedAddress svc <> "".

(** Step 4 fails: the credential fetch returns an error. *)
Lemma run_credential_error o e s2 :
  getSecret c Background credentialKey corev1.zeroSecret s1 = (o, Some e, s2) ->
  Resolve s = failure e s2
                [endpointCall namespace name; credentialCall namespace name].
Proof.
  intros H. resolve_unfold. rewrite Hsvc.
  resolve_port Hp.
  destruct (String.eqb_spec (selectedAddress svc) ""); [contradiction|].
  cbn -[Nat.eqb String.eqb nth length Sprintf]. now rewrite H.
Qed.

(** Step 5 fails: the credential secret has no entry for the user. *)
Lemma run_missing_entry cred s2 :
  getSecret c Background credentialKey corev1.zeroSecret s1 = (cred, None, s2) ->
  corev1.Data cred !! "elastic" = None ->
  Resolve s = failure (MissingEntry (credentialName name)) s2
                [endpointCall namespace name; credentialCall namespace name].
Proof.
  intros H Hd. resolve_unfold. rewrite Hsvc.
  resolve_port Hp.
  destruct (String.eqb_spec (selectedAddress svc) ""); [contradiction|].
  cbn -[Nat.eqb String.eqb nth length Sprintf]. rewrite H.
  cbn -[Nat.eqb String.eqb nth length Sprintf]. now rewrite Hd.
Qed.

(** Step 6 fails: the trust fetch returns an error. The object passed
    to it is the variable [secret] as the credential fetch left it. *)
Lemma run_trust_error cred s2 pw o e s3 :
  getSecret c Background credentialKey corev1.zeroSecret s1 = (cred, None, s2) ->
  corev1.Data cred !! "elastic" = Some pw ->
  getSecret c Background trustKey cred s2 = (o, Some e, s3) ->
  Resolve s = failure e s3
                [endpointCall namespace name; credentialCall namespace name;
                 trustCall namespace name].
Proof.
  intros H Hd Ht. resolve_unfold. rewrite Hsvc.
  resolve_port Hp.
  destruct (String.eqb_spec (selectedAddress svc) ""); [contradiction|].
  cbn -[Nat.eqb String.eqb nth length Sprintf]. rewrite H.
  cbn -[Nat.eqb String.eqb nth length Sprintf]. rewrite Hd.
  cbn -[Nat.eqb String.eqb nth length Sprintf]. now rewrite Ht.
Qed.

(** All steps pass. *)
Lemma run_success cred s2 pw trust s3 :
  getSecret c Background credentialKey corev1.zeroSecret s1 = (cred, None, s2) ->
  corev1.Data cred !! "elastic" = Some pw ->
  getSecret c Background trustKey cred s2 = (trust, None, s3) ->
  Resolve s = outcome (resolved p (selectedAddress svc) pw trust) None s3
                [endpointCall namespace name; credentialCall namespace name;
                 trustCall namespace name].
Proof.
  intros H Hd Ht. resolve_unfold. rewrite Hsvc.
  resolve_port Hp.
  destruct (String.eqb_spec (selectedAddress svc) ""); [contradiction|].
  cbn -[Nat.eqb String.eqb nth length Sprintf]. rewrite H.
  cbn -[Nat.eqb String.eqb nth length Sprintf]. rewrite Hd.
  cbn -[Nat.eqb String.eqb nth length Sprintf]. rewrite Ht.
  cbn -[Nat.eqb String.eqb nth length Sprintf].
  rewrite ?ip_selectedAddress, ?Sprintf_address.
  unfold resolved.
  destruct (corev1.Data trust !! "ca.crt"); reflexivity.
Qed.

End EndpointOk.

End AnyClient.

(** ** Every run stops at one of the seven places *)

Section RunStops.

Context {S : Type} (c : Client S).
Variables (namespace name : string) (s : S).

Local Abbreviation endpointKey := (nsName namespace (endpointName name)).
Local Abbreviation credentialKey := (nsName namespace (credentialName name)).
Local Abbreviation trustKey := (nsName namespace (trustName name)).

Lemma length_one {A : Type} (l : list A) : length l = 1 -> exists a, l = [a].
Proof. destruct l as [|a [|b l]]; try discriminate. eauto. Qed.

Lemma run_stops :
  stops c namespace name s (run c (utils.ResolveEsConfigFromk8s namespace name) s).
Proof.
  destruct (getService c Background endpointKey corev1.zeroService s)
    as [[svc [e|]] s1] eqn:Hsvc.
  { erewrite run_endpoint_error by eassumption. econstructor; eassumption. }
  destruct (Nat.eq_dec (length (corev1.Ports (corev1.Spec svc))) 1) as [Hl|Hl].
  2: { erewrite run_invalid_shape by eassumption. econstructor; eassumption. }
  apply length_one in Hl as [p Hp].
  destruct (String.eqb_spec (selectedAddress svc) "") as [Hip|Hip].
  { erewrite run_missing_address by eassumption. econstructor; eassumption. }
  destruct (getSecret c Background credentialKey corev1.zeroSecret s1)
    as [[cred [e|]] s2] eqn:Hcred.
  { erewrite run_credential_error by eassumption. econstructor; eassumption. }
  destruct (corev1.Data cred !! "elastic") as [pw|] eqn:Hpw.
  2: { erewrite run_missing_entry by eassumption. econstructor; eassumption. }
  destruct (getSecret c Background trustKey cred s2)
    as [[trust [e|]] s3] eqn:Htrust.
  { erewrite run_trust_error by eassumption. econstructor; eassumption. }
  erewrite run_success by eassumption. econstructor; eassumption.
Qed.

End RunStops.

(** ** The directory client *)

Section Directory.

Variables (d : Directory) (namespace : string).

Lemma dir_getService ctx n obj :
  getService dirClient ctx (nsName namespace n) obj d
  = match services d !! (namespace, n) with
    | Some o => (o, None, d)
    | None => (obj, Some (NotFound KService n), d)
    end.
Proof. reflexivity. Qed.

Lemma dir_getSecret ctx n obj :
  getSecret dirClient ctx (nsName namespace n) obj d
  = match secrets d !! (namespace, n) with
    | Some o => (o, None, d)
    | None => (obj, Some (NotFound KSecret n), d)
    end.
Proof. reflexivity. Qed.

Lemma dir_service_hit ctx n obj o :
  services d !! (namespace, n) = Some o ->
  getService dirClient ctx (nsName namespace n) obj d = (o, None, d).
Proof. intros H. now rewrite dir_getService, H. Qed.

Lemma dir_service_miss ctx n obj :
  services d !! (namespace, n) = None ->
  getService dirClient ctx (nsName namespace n) obj d
  = (obj, Some (NotFound KService n), d).
Proof. intros H. now rewrite dir_getService, H. Qed.

Lemma dir_secret_hit ctx n obj o :
  secrets d !! (namespace, n) = Some o ->
  getSecret dirClient ctx (nsName namespace n) obj d = (o, None, d).
Proof. intros H. now rewrite dir_getSecret, H. Qed.

Lemma dir_secret_miss ctx n obj :
  secrets d !! (namespace, n) = None ->
  getSecret dirClient ctx (nsName namespace n) obj d
  = (obj, Some (NotFound KSecret n), d).
Proof. intros H. now rewrite dir_getSecret, H. Qed.

Lemma dir_service_ok ctx n obj o s1 :
  getService dirClient ctx (nsName namespace n) obj d = (o, None, s1) ->
  services d !! (namespace, n) = Some o /\ s1 = d.
Proof.
  rewrite dir_getService.
  destruct (services d !! (namespace, n)); intros [= <- <-]; auto.
Qed.

Lemma dir_secret_ok ctx n obj o s1 :
  getSecret dirClient ctx (nsName namespace n) obj d = (o, None, s1) ->
  secrets d !! (namespace, n) = Some o /\ s1 = d.
Proof.
  rewrite dir_getSecret.
  destruct (secrets d !! (namespace, n)); intros [= <- <-]; auto.
Qed.

Lemma dir_secret_err ctx n obj o e s1 :
  getSecret dirClient ctx (nsName namespace n) obj d = (o, Some e, s1) ->
  e = NotFound KSecret n /\ s1 = d.
Proof.
  rewrite dir_getSecret.
  destruct (secrets d !! (namespace, n)); intros [= <- <- <-]; auto.
Qed.

End Directory.

(** The directory client only reads: whatever the program, the directory
    is the same afterwards. *)
Lemma dir_read_only {R : Type} (p : prog R) (d : Directory) :
  final (run dirClient p d) = d.
Proof.
  induction p as [r | ctx k obj cont IH | ctx k obj cont IH]; cbn.
  - reflexivity.
  - destruct (services d !! key_of k); cbn; apply IH.
  - destruct (secrets d !! key_of k); cbn; apply IH.
Qed.

(** Running [m] and then [f] on its result: the second part starts from
    the state the first one leaves, and the calls are those of the first
    followed by those of the second. *)
Lemma run_bind {S A B : Type} (c : Client S) (m : prog A) (f : A -> prog B)
    (s : S) :
  run c (m ≫= f) s
  = {| result := result (run c (f (result (run c m s))) (final (run c m s)));
       final := final (run c (f (result (run c m s))) (final (run c m s)));
       trace := trace (run c m s)
                ++ trace (run c (f (result (run c m s))) (final (run c m s))) |}.
Proof.
  revert s.
  induction m as [r | ctx k obj cont IH | ctx k obj cont IH]; intros s.
  - cbn. now destruct (run c (f r) s).
  - cbn. destruct (getService c ctx k obj s) as [[o e] s1].
    change (bind (cont o e) f) with (cont o e ≫= f).
    rewrite IH. reflexivity.
  - cbn. destruct (getSecret c ctx k obj s) as [[o e] s1].
    change (bind (cont o e) f) with (cont o e ≫= f).
    rewrite IH. reflexivity.
Qed.

(** ** Resolution over a directory *)

Section Resolution.

Variables (d : Directory) (namespace name : string).

Local Abbreviation E := (endpointCall namespace name).
Local Abbreviation C := (credentialCall namespace name).
Local Abbreviation T := (trustCall namespace name).

Lemma Resolve_endpoint_absent :
  services d !! (namespace, endpointName name) = None ->
  Resolve d namespace name = failure (NotFound KService (endpointName name)) d [E].
Proof.
  intros H. apply run_endpoint_error with (o := corev1.zeroService).
  now apply dir_service_miss.
Qed.

Section EndpointPresent.

Variable svc : corev1.Service.
Hypothesis Hsvc : services d !! (namespace, endpointName name) = Some svc.

Lemma Resolve_invalid_shape :
  length (corev1.Ports (corev1.Spec svc)) <> 1 ->
  Resolve d namespace name
  = failure (InvalidShape (length (corev1.Ports (corev1.Spec svc)))) d [E].
Proof.
  intros H. apply run_invalid_shape; [|exact H].
  now apply dir_service_hit.
Qed.

Lemma Resolve_missing_address p :
  corev1.Ports (corev1.Spec svc) = [p] ->
  selectedAddress svc = "" ->
  Resolve d namespace name = failure MissingAddress d [E].
Proof.
  intros Hp H. eapply run_missing_address; eauto using dir_service_hit.
Qed.

Lemma Resolve_credential_absent p :
  corev1.Ports (corev1.Spec svc) = [p] ->
  selectedAddress svc <> "" ->
  secrets d !! (namespace, credentialName name) = None ->
  Resolve d namespace name
  = failure (NotFound KSecret (credentialName name)) d [E; C].
Proof.
  intros Hp Hip H.
  eapply run_credential_error; eauto using dir_service_hit, dir_secret_miss.
Qed.

Lemma Resolve_missing_entry p cred :
  corev1.Ports (corev1.Spec svc) = [p] ->
  selectedAddress svc <> "" ->
  secrets d !! (namespace, credentialName name) = Some cred ->
  corev1.Data cred !! "elastic" = None ->
  Resolve d namespace name
  = failure (MissingEntry (credentialName name)) d [E; C].
Proof.
  intros Hp Hip H Hd.
  eapply run_missing_entry; eauto using dir_service_hit, dir_secret_hit.
Qed.

Lemma Resolve_trust_absent p cred pw :
  corev1.Ports (corev1.Spec svc) = [p] ->
  selectedAddress svc <> "" ->
  secrets d !! (namespace, credentialName name) = Some cred ->
  corev1.Data cred !! "elastic" = Some pw ->
  secrets d !! (namespace, trustName name) = None ->
  Resolve d namespace name
  = failure (NotFound KSecret (trustName name)) d [E; C; T].
Proof.
  intros Hp Hip H Hd Ht.
  eapply run_trust_error; eauto using dir_service_hit, dir_secret_hit, dir_secret_miss.
Qed.

Lemma Resolve_success p cred pw trust :
  corev1.Ports (corev1.Spec svc) = [p] ->
  selectedAddress svc <> "" ->
  secrets d !! (namespace, credentialName name) = Some cred ->
  corev1.Data cred !! "elastic" = Some pw ->
  secrets d !! (namespace, trustName name) = Some trust ->
  Resolve d namespace name
  = outcome (resolved p (selectedAddress svc) pw trust) None d [E; C; T].
Proof.
  intros Hp Hip H Hd Ht.
  eapply run_success; eauto using dir_service_hit, dir_secret_hit.
Qed.

(** What a successful resolution tells about the directory. *)
Lemma Resolve_success_inv cfg :
  result (Resolve d namespace name) = (cfg, None) ->
  exists p cred pw trust,
    corev1.Ports (corev1.Spec svc) = [p]
    /\ selectedAddress svc <> ""
    /\ secrets d !! (namespace, credentialName name) = Some cred
    /\ corev1.Data cred !! "elastic" = Some pw
    /\ secrets d !! (namespace, trustName name) = Some trust
    /\ cfg = resolved p (selectedAddress svc) pw trust.
Proof.
  unfold Resolve.
  destruct (run_stops dirClient namespace name d)
    as [ | | | | | | svc' s1 p cred s2 pw trust s3 H1 Hp Hip H2 Hpw H3 ];
    cbn; try discriminate.
  intros [= <-].
  apply dir_service_ok in H1 as [H1 ->].
  apply dir_secret_ok in H2 as [H2 ->].
  apply dir_secret_ok in H3 as [H3 _].
  assert (svc' = svc) as -> by congruence.
  exists p, cred, pw, trust. auto 10.
Qed.

(** With a non-empty selected address, the error is never the
    missing-address one. *)
Lemma Resolve_not_missing_address p :
  corev1.Ports (corev1.Spec svc) = [p] ->
  selectedAddress svc <> "" ->
  snd (result (Resolve d namespace name)) <> Some MissingAddress.
Proof.
  intros Hp Hip.
  destruct (secrets d !! (namespace, credentialName name)) as [cred|] eqn:Hc.
  2: { erewrite Resolve_credential_absent by eassumption. discriminate. }
  destruct (corev1.Data cred !! "elastic") as [pw|] eqn:Hpw.
  2: { erewrite Resolve_missing_entry by eassumption. discriminate. }
  destruct (secrets d !! (namespace, trustName name)) as [trust|] eqn:Ht.
  2: { erewrite Resolve_trust_absent by eassumption. discriminate. }
  erewrite Resolve_success by eassumption. discriminate.
Qed.

(** The claim's reading of the address rule picks [selectedAddress]. *)
Lemma selected_host host :
  (exists i, corev1.Ingress (corev1.LoadBalancer (corev1.Status svc)) = [i]
             /\ host = corev1.IP i)
  \/ (length (corev1.Ingress (corev1.LoadBalancer (corev1.Status svc))) <> 1
      /\ host = corev1.ClusterIP (corev1.Spec svc)) ->
  host = selectedAddress svc.
Proof.
  unfold selectedAddress. intros [(i & -> & ->) | [Hn ->]]; [reflexivity|].
  destruct (corev1.Ingress (corev1.LoadBalancer (corev1.Status svc)))
    as [|i [|i' l]]; [reflexivity | now contradiction Hn | reflexivity].
Qed.

End EndpointPresent.

End Resolution.

(** * The claims *)

(** C1: in a directory that holds, in the caller's namespace, the service
    [<clusterName>-es-http] with the single port [{http, 9200}], cluster
    IP [127.0.0.1] and no load-balancer ingress, the secret
    [<clusterName>-es-elastic-user] with [elastic -> "secretpw"], and the
    secret [<clusterName>-es-http-certs-public] without a [ca.crt] entry,
    the resolution succeeds with addresses [["http://127.0.0.1:9200"]],
    username ["elastic"], password ["secretpw"] and a nil CA certificate. *)
Theorem C1_happy_path (d : Directory) (namespace clusterName : string)
    (svc : corev1.Service) (cred trust : corev1.Secret) :
  services d !! (namespace, clusterName +:+ "-es-http") = Some svc ->
  corev1.Ports (corev1.Spec svc)
    = [{| corev1.Name := "http"; corev1.Port := 9200%Z |}] ->
  corev1.ClusterIP (corev1.Spec svc) = "127.0.0.1" ->
  corev1.Ingress (corev1.LoadBalancer (corev1.Status svc)) = [] ->
  secrets d !! (namespace, clusterName +:+ "-es-elastic-user") = Some cred ->
  corev1.Data cred !! "elastic" = Some (bytes_of_string "secretpw") ->
  secrets d !! (namespace, clusterName +:+ "-es-http-certs-public") = Some trust ->
  corev1.Data trust !! "ca.crt" = None ->
  result (Resolve d namespace clusterName)
  = ({| elasticsearch.Addresses := ["http://127.0.0.1:9200"];
        elasticsearch.Username := "elastic";
        elasticsearch.Password := "secretpw";
        elasticsearch.CACert := None |}, None).
Proof.
  intros Hsvc Hp Hip Hin Hcred Hpw Htrust Hca.
  assert (Hsel : selectedAddress svc = "127.0.0.1")
    by (unfold selectedAddress; now rewrite Hin).
  erewrite Resolve_success; try eassumption.
  - unfold resolved, outcome. rewrite Hsel, Hca. reflexivity.
  - rewrite Hsel. discriminate.
Qed.

Lemma C1_happy_path_witness :
  result (Resolve fixtures.happy "ns-a" "cluster-a")
  = ({| elasticsearch.Addresses := ["http://127.0.0.1:9200"];
        elasticsearch.Username := "elastic";
        elasticsearch.Password := "secretpw";
        elasticsearch.CACert := None |}, None).
Proof.
  apply (C1_happy_path fixtures.happy "ns-a" "cluster-a"
           fixtures.svc fixtures.userSecret fixtures.certsSecret);
    vm_compute; reflexivity.
Defined.

(** C2: whatever the client answers, when the resolution returns an
    error the configuration returned with it is the zero value: no
    addresses, empty username, empty password, nil CA certificate. *)
Theorem C2_error_gives_zero_config {S : Type} (c : Client S) (s : S)
    (namespace name : string) (cfg : elasticsearch.Config) (err : error) :
  result (run c (utils.ResolveEsConfigFromk8s namespace name) s) = (cfg, Some err) ->
  cfg = elasticsearch.zeroConfig
  /\ elasticsearch.Addresses cfg = []
  /\ elasticsearch.Username cfg = ""
  /\ elasticsearch.Password cfg = ""
  /\ elasticsearch.CACert cfg = None.
Proof.
  destruct (run_stops c namespace name s); cbn; intros [= <- ?]; auto.
Qed.

Lemma C2_error_gives_zero_config_witness :
  snd (result (Resolve fixtures.invalidUser "ns-a" "cluster-a"))
    = Some (MissingEntry "cluster-a-es-elastic-user")
  /\ fst (result (Resolve fixtures.invalidUser "ns-a" "cluster-a"))
     = elasticsearch.zeroConfig.
Proof.
  split; [vm_compute; reflexivity|].
  apply (C2_error_gives_zero_config dirClient fixtures.invalidUser
           "ns-a" "cluster-a" _ (MissingEntry "cluster-a-es-elastic-user")).
  vm_compute. reflexivity.
Defined.

(** C3: when the endpoint [<clusterName>-es-http] exists and declares a
    number of ports other than 1, the resolution fails with the
    invalid-shape error carrying that number, returns the zero
    configuration, and has made the endpoint fetch only. *)
Theorem C3_port_count_not_one (d : Directory) (namespace clusterName : string)
    (svc : corev1.Service) :
  services d !! (namespace, clusterName +:+ "-es-http") = Some svc ->
  length (corev1.Ports (corev1.Spec svc)) <> 1 ->
  Resolve d namespace clusterName
  = {| result := (elasticsearch.zeroConfig,
                  Some (InvalidShape (length (corev1.Ports (corev1.Spec svc)))));
       final := d;
       trace := [endpointCall namespace clusterName] |}.
Proof. intros Hsvc Hn. now apply Resolve_invalid_shape. Qed.

Lemma C3_port_count_not_one_witness :
  Resolve (scenarios.withEndpoint scenarios.twoPorts) "ns-a" "cluster-a"
  = {| result := (elasticsearch.zeroConfig, Some (InvalidShape 2));
       final := scenarios.withEndpoint scenarios.twoPorts;
       trace := [endpointCall "ns-a" "cluster-a"] |}.
Proof.
  apply (C3_port_count_not_one (scenarios.withEndpoint scenarios.twoPorts)
           "ns-a" "cluster-a" scenarios.twoPorts).
  - vm_compute. reflexivity.
  - vm_compute. discriminate.
Defined.

(** C4: for an endpoint with exactly one port, the host of the composed
    address is the ingress address when exactly one ingress is reported
    and the cluster-internal address when zero or several are; when that
    host is empty the resolution fails with the missing-address error,
    and when it is not, that error never occurs and every success carries
    the address [protocol://host:port] (and a success follows as soon as
    the two secrets are in place). *)
Theorem C4_address_selection (d : Directory) (namespace clusterName : string)
    (svc : corev1.Service) (p : corev1.ServicePort) (host : string) :
  services d !! (namespace, clusterName +:+ "-es-http") = Some svc ->
  corev1.Ports (corev1.Spec svc) = [p] ->
  (exists i, corev1.Ingress (corev1.LoadBalancer (corev1.Status svc)) = [i]
             /\ host = corev1.IP i)
  \/ (length (corev1.Ingress (corev1.LoadBalancer (corev1.Status svc))) <> 1
      /\ host = corev1.ClusterIP (corev1.Spec svc)) ->
  (host = "" ->
   Resolve d namespace clusterName
   = {| result := (elasticsearch.zeroConfig, Some MissingAddress);
        final := d;
        trace := [endpointCall namespace clusterName] |})
  /\ (host <> "" ->
      snd (result (Resolve d namespace clusterName)) <> Some MissingAddress
      /\ (forall cfg,
            result (Resolve d namespace clusterName) = (cfg, None) ->
            elasticsearch.Addresses cfg
            = [corev1.Name p +:+ "://" +:+ host +:+ ":"
               +:+ format_d (corev1.Port p)])
      /\ (forall cred pw trust,
            secrets d !! (namespace, clusterName +:+ "-es-elastic-user")
              = Some cred ->
            corev1.Data cred !! "elastic" = Some pw ->
            secrets d !! (namespace, clusterName +:+ "-es-http-certs-public")
              = Some trust ->
            exists cfg,
              result (Resolve d namespace clusterName) = (cfg, None)
              /\ elasticsearch.Addresses cfg
                 = [corev1.Name p +:+ "://" +:+ host +:+ ":"
                    +:+ format_d (corev1.Port p)])).
Proof.
  intros Hsvc Hp Hsel. apply selected_host in Hsel as ->.
  split; [| intros Hne; repeat split].
  - intros He. now apply Resolve_missing_address with (svc := svc) (p := p).
  - now apply Resolve_not_missing_address with (svc := svc) (p := p).
  - intros cfg Hok.
    destruct (Resolve_success_inv d namespace clusterName svc Hsvc cfg Hok)
      as (p' & cred & pw & trust & Hp' & _ & _ & _ & _ & ->).
    assert (p' = p) as -> by congruence. reflexivity.
  - intros cred pw trust Hc Hpw Ht. eexists. split.
    + erewrite Resolve_success by eassumption. reflexivity.
    + reflexivity.
Qed.

Lemma C4_address_selection_witness :
  exists cfg,
    result (Resolve (scenarios.withEndpoint scenarios.oneIngress)
              "ns-a" "cluster-a") = (cfg, None)
    /\ elasticsearch.Addresses cfg = ["https://34.1.2.3:9200"].
Proof.
  refine (proj2 (proj2 (proj2
    (C4_address_selection (scenarios.withEndpoint scenarios.oneIngress)
       "ns-a" "cluster-a" scenarios.oneIngress
       {| corev1.Name := "https"; corev1.Port := 9200%Z |} "34.1.2.3"
       _ _ _) _))
    fixtures.userSecret (bytes_of_string "secretpw") fixtures.certsSecret
    _ _ _).
  - vm_compute. reflexivity.
  - reflexivity.
  - left. eexists. split; reflexivity.
  - discriminate.
  - vm_compute. reflexivity.
  - vm_compute. reflexivity.
  - vm_compute. reflexivity.
Defined.

(** C5: when the endpoint exists and is well formed (one port, a
    non-empty selected address) and the credential secret exists but has
    no entry under ["elastic"], the resolution fails with the
    missing-entry error naming that secret, after the endpoint and
    credential fetches only, and the configuration returned has no
    password. *)
Theorem C5_missing_elastic_entry (d : Directory) (namespace clusterName : string)
    (svc : corev1.Service) (p : corev1.ServicePort) (cred : corev1.Secret) :
  services d !! (namespace, clusterName +:+ "-es-http") = Some svc ->
  corev1.Ports (corev1.Spec svc) = [p] ->
  selectedAddress svc <> "" ->
  secrets d !! (namespace, clusterName +:+ "-es-elastic-user") = Some cred ->
  corev1.Data cred !! "elastic" = None ->
  Resolve d namespace clusterName
  = {| result := (elasticsearch.zeroConfig,
                  Some (Errorf "no 'elastic' entry in Secret %q"
                          [ArgStr (clusterName +:+ "-es-elastic-user")]));
       final := d;
       trace := [endpointCall namespace clusterName;
                 credentialCall namespace clusterName] |}
  /\ elasticsearch.Password (fst (result (Resolve d namespace clusterName))) = "".
Proof.
  intros Hsvc Hp Hip Hc Hd.
  erewrite Resolve_missing_entry by eassumption. split; reflexivity.
Qed.

Lemma C5_missing_elastic_entry_witness :
  Resolve fixtures.invalidUser "ns-a" "cluster-a"
  = {| result := (elasticsearch.zeroConfig,
                  Some (Errorf "no 'elastic' entry in Secret %q"
                          [ArgStr "cluster-a-es-elastic-user"]));
       final := fixtures.invalidUser;
       trace := [endpointCall "ns-a" "cluster-a";
                 credentialCall "ns-a" "cluster-a"] |}.
Proof.
  refine (proj1 (C5_missing_elastic_entry fixtures.invalidUser
                   "ns-a" "cluster-a" fixtures.svc
                   {| corev1.Name := "http"; corev1.Port := 9200%Z |}
                   fixtures.invalidUserSecret _ _ _ _ _)).
  - vm_compute. reflexivity.
  - reflexivity.
  - vm_compute. discriminate.
  - vm_compute. reflexivity.
  - vm_compute. reflexivity.
Defined.

(** C6: when the endpoint [<clusterName>-es-http] is absent, the
    resolution returns the client's not-found error after the endpoint
    fetch alone, with no fetch of either secret. For any client, the
    fetches made are a prefix of endpoint, credential, trust in that
    order; an endpoint fetch that fails is the only fetch; a credential
    fetch that fails is never followed by the trust fetch; and a success
    has made all three. *)
Theorem C6_fetch_order (namespace clusterName : string) :
  (forall d : Directory,
     services d !! (namespace, clusterName +:+ "-es-http") = None ->
     Resolve d namespace clusterName
     = {| result := (elasticsearch.zeroConfig,
                     Some (NotFound KService (clusterName +:+ "-es-http")));
          final := d;
          trace := [endpointCall namespace clusterName] |})
  /\ (forall (S : Type) (c : Client S) (s : S),
        let o := run c (utils.ResolveEsConfigFromk8s namespace clusterName) s in
        (trace o = [endpointCall namespace clusterName]
         \/ trace o = [endpointCall namespace clusterName;
                       credentialCall namespace clusterName]
         \/ trace o = [endpointCall namespace clusterName;
                       credentialCall namespace clusterName;
                       trustCall namespace clusterName])
        /\ (forall x e s1,
              getService c Background
                (nsName namespace (clusterName +:+ "-es-http"))
                corev1.zeroService s = (x, Some e, s1) ->
              result o = (elasticsearch.zeroConfig, Some e)
              /\ trace o = [endpointCall namespace clusterName])
        /\ (forall svc s1 x e s2,
              getService c Background
                (nsName namespace (clusterName +:+ "-es-http"))
                corev1.zeroService s = (svc, None, s1) ->
              getSecret c Background
                (nsName namespace (clusterName +:+ "-es-elastic-user"))
                corev1.zeroSecret s1 = (x, Some e, s2) ->
              trace o = [endpointCall namespace clusterName]
              \/ (result o = (elasticsearch.zeroConfig, Some e)
                  /\ trace o = [endpointCall namespace clusterName;
                                credentialCall namespace clusterName]))
        /\ (snd (result o) = None ->
            trace o = [endpointCall namespace clusterName;
                       credentialCall namespace clusterName;
                       trustCall namespace clusterName])).
Proof.
  split.
  - intros d H. now apply Resolve_endpoint_absent.
  - intros S c s o. subst o. repeat split.
    + destruct (run_stops c namespace clusterName s); cbn; auto.
    + erewrite run_endpoint_error by eassumption. reflexivity.
    + erewrite run_endpoint_error by eassumption. reflexivity.
    + intros svc s1 x e s2 Hsvc Hcred.
      destruct (Nat.eq_dec (length (corev1.Ports (corev1.Spec svc))) 1) as [Hl|Hl].
      2: { left. erewrite run_invalid_shape by eassumption. reflexivity. }
      apply length_one in Hl as [p Hp].
      destruct (String.eqb_spec (selectedAddress svc) "") as [Hip|Hip].
      { left. erewrite run_missing_address by eassumption. reflexivity. }
      right. erewrite run_credential_error by eassumption. split; reflexivity.
    + destruct (run_stops c namespace clusterName s); cbn;
        try discriminate; reflexivity.
Qed.

Lemma C6_fetch_order_witness :
  Resolve fixtures.missingService "ns-a" "cluster-a"
  = {| result := (elasticsearch.zeroConfig,
                  Some (NotFound KService "cluster-a-es-http"));
       final := fixtures.missingService;
       trace := [endpointCall "ns-a" "cluster-a"] |}.
Proof.
  apply (proj1 (C6_fetch_order "ns-a" "cluster-a") fixtures.missingService).
  vm_compute. reflexivity.
Defined.

(** C7, as the claim states it, fails: the function has no context
    parameter, so a context held by the caller, here one with a
    five-second timeout, is not the context of the fetches. *)
Lemma C7_caller_context_counterexample :
  ~ forwardsContext (WithTimeout Background 5000000000)
      (Resolve fixtures.happy "ns-a" "cluster-a").
Proof.
  unfold forwardsContext. intros H.
  apply Forall_inv in H. vm_compute in H. discriminate H.
Qed.

(** C7, amended: the function takes no context from its caller; every
    fetch it makes, against any client and in any state, is passed
    [context.Background()], which has no deadline and is never
    cancelled. *)
Theorem C7_fetches_use_background {S : Type} (c : Client S) (s : S)
    (namespace name : string) :
  forwardsContext Background
    (run c (utils.ResolveEsConfigFromk8s namespace name) s).
Proof.
  unfold forwardsContext.
  destruct (run_stops c namespace name s); cbn; repeat constructor.
Qed.

(** C8: on a directory [d], two resolutions in a row with the same
    namespace and name return the same pair of configuration and error,
    field by field, each equal to that of a single resolution, and leave
    the directory as it was. *)
Theorem C8_idempotent (d : Directory) (namespace name : string) :
  let o := run dirClient (ResolveTwice namespace name) d in
  fst (result o) = snd (result o)
  /\ snd (fst (result o)) = snd (snd (result o))
  /\ elasticsearch.Addresses (fst (fst (result o)))
     = elasticsearch.Addresses (fst (snd (result o)))
  /\ elasticsearch.Username (fst (fst (result o)))
     = elasticsearch.Username (fst (snd (result o)))
  /\ elasticsearch.Password (fst (fst (result o)))
     = elasticsearch.Password (fst (snd (result o)))
  /\ elasticsearch.CACert (fst (fst (result o)))
     = elasticsearch.CACert (fst (snd (result o)))
  /\ fst (result o) = result (Resolve d namespace name)
  /\ final o = d.
Proof.
  intros o.
  assert (H : result o = (result (Resolve d namespace name),
                          result (Resolve d namespace name))
              /\ final o = d).
  { subst o. unfold ResolveTwice, Resolve.
    rewrite !run_bind. cbn [result final trace run mret prog_ret].
    rewrite !dir_read_only. split; reflexivity. }
  destruct H as [-> ->]. cbn [fst snd]. repeat split; reflexivity.
Qed.

(** C9: on a success the scheme of the single address is the name of the
    endpoint's port as it stands; an endpoint whose port has the empty
    name resolves, once its address and the two secrets are in place, to
    an address [://host:port]. *)
Theorem C9_scheme_is_port_name (d : Directory) (namespace clusterName : string)
    (svc : corev1.Service) :
  services d !! (namespace, clusterName +:+ "-es-http") = Some svc ->
  (forall cfg,
     result (Resolve d namespace clusterName) = (cfg, None) ->
     exists p,
       corev1.Ports (corev1.Spec svc) = [p]
       /\ elasticsearch.Addresses cfg
          = [corev1.Name p +:+ "://" +:+ selectedAddress svc +:+ ":"
             +:+ format_d (corev1.Port p)])
  /\ (forall p cred pw trust,
        corev1.Ports (corev1.Spec svc) = [p] ->
        corev1.Name p = "" ->
        selectedAddress svc <> "" ->
        secrets d !! (namespace, clusterName +:+ "-es-elastic-user") = Some cred ->
        corev1.Data cred !! "elastic" = Some pw ->
        secrets d !! (namespace, clusterName +:+ "-es-http-certs-public")
          = Some trust ->
        exists cfg,
          result (Resolve d namespace clusterName) = (cfg, None)
          /\ elasticsearch.Addresses cfg
             = ["://" +:+ selectedAddress svc +:+ ":"
                +:+ format_d (corev1.Port p)]).
Proof.
  intros Hsvc. split.
  - intros cfg Hok.
    destruct (Resolve_success_inv d namespace clusterName svc Hsvc cfg Hok)
      as (p & cred & pw & trust & Hp & _ & _ & _ & _ & ->).
    exists p. split; [exact Hp | reflexivity].
  - intros p cred pw trust Hp Hn Hip Hc Hpw Ht. eexists. split.
    + erewrite Resolve_success by eassumption. reflexivity.
    + cbn [resolved elasticsearch.Addresses]. unfold composeAddress.
      rewrite Hn. reflexivity.
Qed.

Lemma C9_scheme_is_port_name_witness :
  exists cfg,
    result (Resolve (scenarios.withEndpoint scenarios.unnamedPort)
              "ns-a" "cluster-a") = (cfg, None)
    /\ elasticsearch.Addresses cfg = ["://127.0.0.1:9200"].
Proof.
  refine (proj2
    (C9_scheme_is_port_name (scenarios.withEndpoint scenarios.unnamedPort)
       "ns-a" "cluster-a" scenarios.unnamedPort _)
    {| corev1.Name := ""; corev1.Port := 9200%Z |}
    fixtures.userSecret (bytes_of_string "secretpw") fixtures.certsSecret
    _ _ _ _ _ _).
  - vm_compute. reflexivity.
  - reflexivity.
  - reflexivity.
  - vm_compute. discriminate.
  - vm_compute. reflexivity.
  - vm_compute. reflexivity.
  - vm_compute. reflexivity.
Defined.

(** C10: for an endpoint with one port that reports exactly one ingress
    whose IP is empty, the resolution fails with the missing-address
    error after the endpoint fetch, whatever the cluster-internal
    address is. *)
Theorem C10_empty_ingress_ip (d : Directory) (namespace clusterName : string)
    (svc : corev1.Service) (p : corev1.ServicePort)
    (i : corev1.LoadBalancerIngress) :
  services d !! (namespace, clusterName +:+ "-es-http") = Some svc ->
  corev1.Ports (corev1.Spec svc) = [p] ->
  corev1.Ingress (corev1.LoadBalancer (corev1.Status svc)) = [i] ->
  corev1.IP i = "" ->
  Resolve d namespace clusterName
  = {| result := (elasticsearch.zeroConfig,
                  Some (Errorf "service IP not found" []));
       final := d;
       trace := [endpointCall namespace clusterName] |}.
Proof.
  intros Hsvc Hp Hin Hip.
  apply Resolve_missing_address with (svc := svc) (p := p); try assumption.
  unfold selectedAddress. now rewrite Hin.
Qed.

Lemma C10_empty_ingress_ip_witness :
  corev1.ClusterIP (corev1.Spec scenarios.hostnameIngress) = "10.0.0.1"
  /\ Resolve (scenarios.withEndpoint scenarios.hostnameIngress) "ns-a" "cluster-a"
     = {| result := (elasticsearch.zeroConfig,
                     Some (Errorf "service IP not found" []));
          final := scenarios.withEndpoint scenarios.hostnameIngress;
          trace := [endpointCall "ns-a" "cluster-a"] |}.
Proof.
  split; [reflexivity|].
  apply (C10_empty_ingress_ip (scenarios.withEndpoint scenarios.hostnameIngress)
           "ns-a" "cluster-a" scenarios.hostnameIngress
           {| corev1.Name := "https"; corev1.Port := 9200%Z |}
           {| corev1.IP := ""; corev1.Hostname := "lb.example.com" |}).
  - vm_compute. reflexivity.
  - reflexivity.
  - reflexivity.
  - reflexivity.
Defined.

(** * Further properties of [ResolveEsConfigFromk8s] *)

Lemma dir_service_err (d : Directory) namespace ctx n obj o e s1 :
  getService dirClient ctx (nsName namespace n) obj d = (o, Some e, s1) ->
  services d !! (namespace, n) = None /\ e = NotFound KService n /\ s1 = d.
Proof.
  rewrite dir_getService.
  destruct (services d !! (namespace, n)); intros [= <- <- <-]; auto.
Qed.

Lemma dir_secret_none (d : Directory) namespace ctx n obj o e s1 :
  getSecret dirClient ctx (nsName namespace n) obj d = (o, Some e, s1) ->
  secrets d !! (namespace, n) = None.
Proof.
  rewrite dir_getSecret.
  destruct (secrets d !! (namespace, n)); intros [= <- <- <-]; auto.
Qed.

(** X1: with a well-formed endpoint and no credential secret
    [<clusterName>-es-elastic-user], the resolution returns the client's
    not-found error for that name with the zero configuration, after the
    endpoint and credential fetches; the trust secret is not fetched. *)
Theorem credential_secret_absent (d : Directory) (namespace clusterName : string)
    (svc : corev1.Service) (p : corev1.ServicePort) :
  services d !! (namespace, clusterName +:+ "-es-http") = Some svc ->
  corev1.Ports (corev1.Spec svc) = [p] ->
  selectedAddress svc <> "" ->
  secrets d !! (namespace, clusterName +:+ "-es-elastic-user") = None ->
  Resolve d namespace clusterName
  = {| result := (elasticsearch.zeroConfig,
                  Some (NotFound KSecret (clusterName +:+ "-es-elastic-user")));
       final := d;
       trace := [endpointCall namespace clusterName;
                 credentialCall namespace clusterName] |}.
Proof.
  intros Hsvc Hp Hip Hc.
  now apply Resolve_credential_absent with (svc := svc) (p := p).
Qed.

Lemma credential_secret_absent_witness :
  Resolve fixtures.missingUserSecret "ns-a" "cluster-a"
  = {| result := (elasticsearch.zeroConfig,
                  Some (NotFound KSecret "cluster-a-es-elastic-user"));
       final := fixtures.missingUserSecret;
       trace := [endpointCall "ns-a" "cluster-a";
                 credentialCall "ns-a" "cluster-a"] |}.
Proof.
  apply (credential_secret_absent fixtures.missingUserSecret "ns-a" "cluster-a"
           fixtures.svc {| corev1.Name := "http"; corev1.Port := 9200%Z |}).
  - vm_compute. reflexivity.
  - reflexivity.
  - vm_compute. discriminate.
  - vm_compute. reflexivity.
Defined.

(** X2: with a well-formed endpoint and a credential secret that has the
    [elastic] entry, but no trust secret
    [<clusterName>-es-http-certs-public], the resolution returns the
    client's not-found error for that name after all three fetches, and
    the configuration is the zero value: the username and password
    already read are not returned. *)
Theorem trust_secret_absent (d : Directory) (namespace clusterName : string)
    (svc : corev1.Service) (p : corev1.ServicePort) (cred : corev1.Secret)
    (pw : bytes) :
  services d !! (namespace, clusterName +:+ "-es-http") = Some svc ->
  corev1.Ports (corev1.Spec svc) = [p] ->
  selectedAddress svc <> "" ->
  secrets d !! (namespace, clusterName +:+ "-es-elastic-user") = Some cred ->
  corev1.Data cred !! "elastic" = Some pw ->
  secrets d !! (namespace, clusterName +:+ "-es-http-certs-public") = None ->
  Resolve d namespace clusterName
  = {| result := (elasticsearch.zeroConfig,
                  Some (NotFound KSecret (clusterName +:+ "-es-http-certs-public")));
       final := d;
       trace := [endpointCall namespace clusterName;
                 credentialCall namespace clusterName;
                 trustCall namespace clusterName] |}.
Proof.
  intros Hsvc Hp Hip Hc Hpw Ht.
  now apply Resolve_trust_absent with (svc := svc) (p := p) (cred := cred) (pw := pw).
Qed.

Lemma trust_secret_absent_witness :
  result (Resolve (withSecret "ns-a" "cluster-a-es-elastic-user"
                     fixtures.userSecret fixtures.missingUserSecret)
            "ns-a" "cluster-a")
  = (elasticsearch.zeroConfig,
     Some (NotFound KSecret "cluster-a-es-http-certs-public")).
Proof.
  refine (f_equal result
    (trust_secret_absent
       (withSecret "ns-a" "cluster-a-es-elastic-user"
          fixtures.userSecret fixtures.missingUserSecret)
       "ns-a" "cluster-a" fixtures.svc
       {| corev1.Name := "http"; corev1.Port := 9200%Z |}
       fixtures.userSecret (bytes_of_string "secretpw") _ _ _ _ _ _)).
  - vm_compute. reflexivity.
  - reflexivity.
  - vm_compute. discriminate.
  - vm_compute. reflexivity.
  - vm_compute. reflexivity.
  - vm_compute. reflexivity.
Defined.

(** X3: over a directory the resolution succeeds exactly when the
    endpoint exists with one port and a non-empty selected address, the
    credential secret exists with an [elastic] entry, and the trust
    secret exists. *)
Theorem success_iff (d : Directory) (namespace clusterName : string) :
  snd (result (Resolve d namespace clusterName)) = None
  <-> exists svc p cred pw trust,
        services d !! (namespace, clusterName +:+ "-es-http") = Some svc
        /\ corev1.Ports (corev1.Spec svc) = [p]
        /\ selectedAddress svc <> ""
        /\ secrets d !! (namespace, clusterName +:+ "-es-elastic-user") = Some cred
        /\ corev1.Data cred !! "elastic" = Some pw
        /\ secrets d !! (namespace, clusterName +:+ "-es-http-certs-public")
           = Some trust.
Proof.
  split.
  - unfold Resolve.
    destruct (run_stops dirClient namespace clusterName d)
      as [ | | | | | | svc s1 p cred s2 pw trust s3 H1 Hp Hip H2 Hpw H3 ];
      cbn; try discriminate.
    intros _.
    apply dir_service_ok in H1 as [H1 ->].
    apply dir_secret_ok in H2 as [H2 ->].
    apply dir_secret_ok in H3 as [H3 _].
    exists svc, p, cred, pw, trust. auto 10.
  - intros (svc & p & cred & pw & trust & Hsvc & Hp & Hip & Hc & Hpw & Ht).
    erewrite Resolve_success by eassumption. reflexivity.
Qed.

(** X4: against any client, when the three fetches answer without error,
    the endpoint has one port and a non-empty selected address, and the
    credential object has an [elastic] entry, the result is the address
    [protocol://host:port], the username ["elastic"], the entry as
    password and the [ca.crt] entry of the object left by the trust
    fetch. The object handed to the trust fetch is the one the
    credential fetch left, not a fresh one. *)
Theorem success_any_client {S : Type} (c : Client S) (namespace clusterName : string)
    (s s1 s2 s3 : S) (svc : corev1.Service) (p : corev1.ServicePort)
    (cred trust : corev1.Secret) (pw : bytes) :
  getService c Background (nsName namespace (clusterName +:+ "-es-http"))
    corev1.zeroService s = (svc, None, s1) ->
  corev1.Ports (corev1.Spec svc) = [p] ->
  selectedAddress svc <> "" ->
  getSecret c Background (nsName namespace (clusterName +:+ "-es-elastic-user"))
    corev1.zeroSecret s1 = (cred, None, s2) ->
  corev1.Data cred !! "elastic" = Some pw ->
  getSecret c Background
    (nsName namespace (clusterName +:+ "-es-http-certs-public"))
    cred s2 = (trust, None, s3) ->
  run c (utils.ResolveEsConfigFromk8s namespace clusterName) s
  = {| result :=
         ({| elasticsearch.Addresses :=
               [corev1.Name p +:+ "://" +:+ selectedAddress svc +:+ ":"
                +:+ format_d (corev1.Port p)];
             elasticsearch.Username := "elastic";
             elasticsearch.Password := string_of_bytes pw;
             elasticsearch.CACert :=
               match corev1.Data trust !! "ca.crt" with
               | Some caCert => caCert
               | None => None
               end |}, None);
       final := s3;
       trace := [endpointCall namespace clusterName;
                 credentialCall namespace clusterName;
                 trustCall namespace clusterName] |}.
Proof.
  intros Hsvc Hp Hip Hc Hpw Ht.
  erewrite run_success by eassumption. reflexivity.
Qed.

Lemma success_any_client_witness :
  result (run dirClient (utils.ResolveEsConfigFromk8s "ns-a" "cluster-a")
            fixtures.happy)
  = ({| elasticsearch.Addresses := ["http://127.0.0.1:9200"];
        elasticsearch.Username := "elastic";
        elasticsearch.Password := "secretpw";
        elasticsearch.CACert := None |}, None).
Proof.
  refine (f_equal result
    (success_any_client dirClient "ns-a" "cluster-a"
       fixtures.happy fixtures.happy fixtures.happy fixtures.happy
       fixtures.svc {| corev1.Name := "http"; corev1.Port := 9200%Z |}
       fixtures.userSecret fixtures.certsSecret (bytes_of_string "secretpw")
       _ _ _ _ _ _)).
  - vm_compute. reflexivity.
  - reflexivity.
  - vm_compute. discriminate.
  - vm_compute. reflexivity.
  - vm_compute. reflexivity.
  - vm_compute. reflexivity.
Defined.

(** X5: when the trust secret has a [ca.crt] entry, a successful
    resolution returns that entry's value as the CA certificate, as it
    stands (also when it is nil or empty). *)
Theorem ca_cert_verbatim (d : Directory) (namespace clusterName : string)
    (svc : corev1.Service) (p : corev1.ServicePort)
    (cred trust : corev1.Secret) (pw caCert : bytes) :
  services d !! (namespace, clusterName +:+ "-es-http") = Some svc ->
  corev1.Ports (corev1.Spec svc) = [p] ->
  selectedAddress svc <> "" ->
  secrets d !! (namespace, clusterName +:+ "-es-elastic-user") = Some cred ->
  corev1.Data cred !! "elastic" = Some pw ->
  secrets d !! (namespace, clusterName +:+ "-es-http-certs-public") = Some trust ->
  corev1.Data trust !! "ca.crt" = Some caCert ->
  snd (result (Resolve d namespace clusterName)) = None
  /\ elasticsearch.CACert (fst (result (Resolve d namespace clusterName))) = caCert.
Proof.
  intros Hsvc Hp Hip Hc Hpw Ht Hca.
  erewrite Resolve_success by eassumption.
  unfold outcome, resolved. cbn [result fst snd elasticsearch.CACert].
  rewrite Hca. split; reflexivity.
Qed.

Lemma ca_cert_verbatim_witness :
  elasticsearch.CACert
    (fst (result (Resolve
       (withSecret "ns-a" "cluster-a-es-http-certs-public"
          {| corev1.Data := {[ "ca.crt" := bytes_of_string "-----BEGIN" ]} |}
          fixtures.happy) "ns-a" "cluster-a")))
  = bytes_of_string "-----BEGIN".
Proof.
  refine (proj2
    (ca_cert_verbatim
       (withSecret "ns-a" "cluster-a-es-http-certs-public"
          {| corev1.Data := {[ "ca.crt" := bytes_of_string "-----BEGIN" ]} |}
          fixtures.happy)
       "ns-a" "cluster-a" fixtures.svc
       {| corev1.Name := "http"; corev1.Port := 9200%Z |}
       fixtures.userSecret
       {| corev1.Data := {[ "ca.crt" := bytes_of_string "-----BEGIN" ]} |}
       (bytes_of_string "secretpw") (bytes_of_string "-----BEGIN")
       _ _ _ _ _ _ _)).
  - vm_compute. reflexivity.
  - reflexivity.
  - vm_compute. discriminate.
  - vm_compute. reflexivity.
  - vm_compute. reflexivity.
  - vm_compute. reflexivity.
  - vm_compute. reflexivity.
Defined.

(** X6: the password of a successful resolution is the [elastic] entry
    byte for byte: converting it back to bytes gives the entry's bytes,
    with nothing trimmed or decoded. *)
Theorem password_verbatim (d : Directory) (namespace clusterName : string)
    (svc : corev1.Service) (p : corev1.ServicePort)
    (cred trust : corev1.Secret) (l : list Byte.byte) :
  services d !! (namespace, clusterName +:+ "-es-http") = Some svc ->
  corev1.Ports (corev1.Spec svc) = [p] ->
  selectedAddress svc <> "" ->
  secrets d !! (namespace, clusterName +:+ "-es-elastic-user") = Some cred ->
  corev1.Data cred !! "elastic" = Some (Some l) ->
  secrets d !! (namespace, clusterName +:+ "-es-http-certs-public") = Some trust ->
  snd (result (Resolve d namespace clusterName)) = None
  /\ String.list_byte_of_string
       (elasticsearch.Password (fst (result (Resolve d namespace clusterName))))
     = l.
Proof.
  intros Hsvc Hp Hip Hc Hpw Ht.
  erewrite Resolve_success by eassumption.
  unfold outcome, resolved.
  cbn [result fst snd elasticsearch.Password string_of_bytes].
  split; [reflexivity | apply String.list_byte_of_string_of_list_byte].
Qed.

Lemma password_verbatim_witness :
  String.list_byte_of_string
    (elasticsearch.Password
       (fst (result (Resolve fixtures.happy "ns-a" "cluster-a"))))
  = String.list_byte_of_string "secretpw".
Proof.
  refine (proj2
    (password_verbatim fixtures.happy "ns-a" "cluster-a" fixtures.svc
       {| corev1.Name := "http"; corev1.Port := 9200%Z |}
       fixtures.userSecret fixtures.certsSecret
       (String.list_byte_of_string "secretpw") _ _ _ _ _ _)).
  - vm_compute. reflexivity.
  - reflexivity.
  - vm_compute. discriminate.
  - vm_compute. reflexivity.
  - vm_compute. reflexivity.
  - vm_compute. reflexivity.
Defined.

(** X7: only the presence of the [elastic] entry is tested: an entry
    whose value is nil or has no bytes is accepted, and the resolution
    succeeds with the empty password. *)
Theorem empty_password_accepted (d : Directory) (namespace clusterName : string)
    (svc : corev1.Service) (p : corev1.ServicePort)
    (cred trust : corev1.Secret) (pw : bytes) :
  services d !! (namespace, clusterName +:+ "-es-http") = Some svc ->
  corev1.Ports (corev1.Spec svc) = [p] ->
  selectedAddress svc <> "" ->
  secrets d !! (namespace, clusterName +:+ "-es-elastic-user") = Some cred ->
  corev1.Data cred !! "elastic" = Some pw ->
  pw = None \/ pw = Some [] ->
  secrets d !! (namespace, clusterName +:+ "-es-http-certs-public") = Some trust ->
  snd (result (Resolve d namespace clusterName)) = None
  /\ elasticsearch.Password (fst (result (Resolve d namespace clusterName))) = "".
Proof.
  intros Hsvc Hp Hip Hc Hpw Hempty Ht.
  erewrite Resolve_success by eassumption.
  destruct Hempty as [-> | ->]; split; reflexivity.
Qed.

Lemma empty_password_accepted_witness :
  snd (result (Resolve
         (withSecret "ns-a" "cluster-a-es-elastic-user"
            {| corev1.Data := {[ "elastic" := None ]} |} fixtures.happy)
         "ns-a" "cluster-a")) = None
  /\ elasticsearch.Password
       (fst (result (Resolve
          (withSecret "ns-a" "cluster-a-es-elastic-user"
             {| corev1.Data := {[ "elastic" := None ]} |} fixtures.happy)
          "ns-a" "cluster-a"))) = "".
Proof.
  refine (empty_password_accepted
       (withSecret "ns-a" "cluster-a-es-elastic-user"
          {| corev1.Data := {[ "elastic" := None ]} |} fixtures.happy)
       "ns-a" "cluster-a" fixtures.svc
       {| corev1.Name := "http"; corev1.Port := 9200%Z |}
       {| corev1.Data := {[ "elastic" := None ]} |} fixtures.certsSecret
       None _ _ _ _ _ _ _).
  - vm_compute. reflexivity.
  - reflexivity.
  - vm_compute. discriminate.
  - vm_compute. reflexivity.
  - vm_compute. reflexivity.
  - left. reflexivity.
  - vm_compute. reflexivity.
Defined.

(** X8: the resolution reads three objects and nothing else: two
    directories that agree on the endpoint, the credential secret and the
    trust secret of the cluster give the same result and the same
    fetches, whatever else they hold. *)
Theorem depends_on_three_objects (d d' : Directory)
    (namespace clusterName : string) :
  services d !! (namespace, clusterName +:+ "-es-http")
    = services d' !! (namespace, clusterName +:+ "-es-http") ->
  secrets d !! (namespace, clusterName +:+ "-es-elastic-user")
    = secrets d' !! (namespace, clusterName +:+ "-es-elastic-user") ->
  secrets d !! (namespace, clusterName +:+ "-es-http-certs-public")
    = secrets d' !! (namespace, clusterName +:+ "-es-http-certs-public") ->
  result (Resolve d namespace clusterName)
    = result (Resolve d' namespace clusterName)
  /\ trace (Resolve d namespace clusterName)
     = trace (Resolve d' namespace clusterName).
Proof.
  intros H1 H2 H3. symmetry in H1, H2, H3.
  destruct (services d !! (namespace, clusterName +:+ "-es-http"))
    as [svc|] eqn:Hsvc.
  2: { rewrite (Resolve_endpoint_absent d), (Resolve_endpoint_absent d')
         by assumption. split; reflexivity. }
  destruct (Nat.eq_dec (length (corev1.Ports (corev1.Spec svc))) 1) as [Hl|Hl].
  2: { rewrite (Resolve_invalid_shape d _ _ svc),
         (Resolve_invalid_shape d' _ _ svc) by assumption.
       split; reflexivity. }
  apply length_one in Hl as [p Hp].
  destruct (String.eqb_spec (selectedAddress svc) "") as [Hip|Hip].
  { rewrite (Resolve_missing_address d _ _ svc Hsvc p),
      (Resolve_missing_address d' _ _ svc H1 p) by assumption.
    split; reflexivity. }
  destruct (secrets d !! (namespace, clusterName +:+ "-es-elastic-user"))
    as [cred|] eqn:Hc.
  2: { rewrite (Resolve_credential_absent d _ _ svc Hsvc p),
         (Resolve_credential_absent d' _ _ svc H1 p) by assumption.
       split; reflexivity. }
  destruct (corev1.Data cred !! "elastic") as [pw|] eqn:Hpw.
  2: { rewrite (Resolve_missing_entry d _ _ svc Hsvc p cred),
         (Resolve_missing_entry d' _ _ svc H1 p cred) by assumption.
       split; reflexivity. }
  destruct (secrets d !! (namespace, clusterName +:+ "-es-http-certs-public"))
    as [trust|] eqn:Ht.
  2: { rewrite (Resolve_trust_absent d _ _ svc Hsvc p cred pw),
         (Resolve_trust_absent d' _ _ svc H1 p cred pw) by assumption.
       split; reflexivity. }
  rewrite (Resolve_success d _ _ svc Hsvc p cred pw trust),
    (Resolve_success d' _ _ svc H1 p cred pw trust) by assumption.
  split; reflexivity.
Qed.

Lemma depends_on_three_objects_witness :
  result (Resolve fixtures.happy "ns-a" "cluster-a")
  = result (Resolve
      (withSecret "ns-b" "cluster-a-es-elastic-user" fixtures.invalidUserSecret
         (withService "ns-a" "cluster-b-es-http" scenarios.twoPorts
            fixtures.happy)) "ns-a" "cluster-a").
Proof.
  refine (proj1
    (depends_on_three_objects fixtures.happy
       (withSecret "ns-b" "cluster-a-es-elastic-user" fixtures.invalidUserSecret
          (withService "ns-a" "cluster-b-es-http" scenarios.twoPorts
             fixtures.happy)) "ns-a" "cluster-a" _ _ _)).
  - vm_compute. reflexivity.
  - vm_compute. reflexivity.
  - vm_compute. reflexivity.
Defined.

(** X9: over a directory, every error of the resolution is one of six,
    each with its cause: the endpoint is absent; it has a port count
    other than 1; its selected address is empty; the credential secret
    is absent; it has no [elastic] entry; the trust secret is absent. *)
Theorem errors_and_causes (d : Directory) (namespace clusterName : string)
    (cfg : elasticsearch.Config) (e : error) :
  result (Resolve d namespace clusterName) = (cfg, Some e) ->
  (services d !! (namespace, clusterName +:+ "-es-http") = None
   /\ e = NotFound KService (clusterName +:+ "-es-http"))
  \/ (exists svc,
        services d !! (namespace, clusterName +:+ "-es-http") = Some svc
        /\ ((length (corev1.Ports (corev1.Spec svc)) <> 1
             /\ e = Errorf "not exactly 1 port: %d"
                      [ArgInt (Z.of_nat (length (corev1.Ports (corev1.Spec svc))))])
            \/ (selectedAddress svc = ""
                /\ e = Errorf "service IP not found" [])
            \/ (secrets d !! (namespace, clusterName +:+ "-es-elastic-user") = None
                /\ e = NotFound KSecret (clusterName +:+ "-es-elastic-user"))
            \/ (exists cred,
                  secrets d !! (namespace, clusterName +:+ "-es-elastic-user")
                    = Some cred
                  /\ ((corev1.Data cred !! "elastic" = None
                       /\ e = Errorf "no 'elastic' entry in Secret %q"
                                [ArgStr (clusterName +:+ "-es-elastic-user")])
                      \/ (secrets d !! (namespace,
                                        clusterName +:+ "-es-http-certs-public")
                            = None
                          /\ e = NotFound KSecret
                                   (clusterName +:+ "-es-http-certs-public")))))).
Proof.
  unfold Resolve.
  destruct (run_stops dirClient namespace clusterName d)
    as [ o e' s1 H1
       | svc s1 H1 Hl
       | svc s1 p H1 Hp Hip
       | svc s1 p o e' s2 H1 Hp Hip H2
       | svc s1 p cred s2 H1 Hp Hip H2 Hpw
       | svc s1 p cred s2 pw o e' s3 H1 Hp Hip H2 Hpw H3
       | svc s1 p cred s2 pw trust s3 H1 Hp Hip H2 Hpw H3 ];
    cbn; intros [= <- <-].
  - apply dir_service_err in H1 as (H1 & -> & _). left. auto.
  - apply dir_service_ok in H1 as [H1 _]. right. exists svc. auto.
  - apply dir_service_ok in H1 as [H1 _]. right. exists svc. auto.
  - apply dir_service_ok in H1 as [H1 ->].
    pose proof (dir_secret_none _ _ _ _ _ _ _ _ H2) as Hn.
    apply dir_secret_err in H2 as [-> _].
    right. exists svc. auto 6.
  - apply dir_service_ok in H1 as [H1 ->].
    apply dir_secret_ok in H2 as [H2 _].
    right. exists svc. split; [assumption|].
    do 3 right. exists cred. auto.
  - apply dir_service_ok in H1 as [H1 ->].
    apply dir_secret_ok in H2 as [H2 ->].
    pose proof (dir_secret_none _ _ _ _ _ _ _ _ H3) as Hn.
    apply dir_secret_err in H3 as [-> _].
    right. exists svc. split; [assumption|].
    do 3 right. exists cred. auto.
Qed.

Lemma errors_and_causes_witness :
  exists svc,
    services fixtures.invalidUser !! ("ns-a", "cluster-a" +:+ "-es-http") = Some svc.
Proof.
  destruct (errors_and_causes fixtures.invalidUser "ns-a" "cluster-a"
              elasticsearch.zeroConfig
              (MissingEntry "cluster-a-es-elastic-user"))
    as [[H _] | (svc & H & _)].
  - vm_compute. reflexivity.
  - vm_compute in H. discriminate H.
  - exists svc. exact H.
Defined.

(** X10: against any client, an error of the resolution is either one of
    the three this function makes itself, or the very error that the
    endpoint, credential or trust fetch of this run answered, passed on
    without wrapping. *)
Theorem client_errors_unwrapped {S : Type} (c : Client S) (s : S)
    (namespace name : string) (cfg : elasticsearch.Config) (e : error) :
  result (run c (utils.ResolveEsConfigFromk8s namespace name) s) = (cfg, Some e) ->
  (exists n, n <> 1 /\ e = InvalidShape n)
  \/ e = MissingAddress
  \/ e = MissingEntry (name +:+ "-es-elastic-user")
  \/ (exists o s1,
        getService c Background (nsName namespace (name +:+ "-es-http"))
          corev1.zeroService s = (o, Some e, s1))
  \/ (exists svc s1 o s2,
        getService c Background (nsName namespace (name +:+ "-es-http"))
          corev1.zeroService s = (svc, None, s1)
        /\ getSecret c Background
             (nsName namespace (name +:+ "-es-elastic-user"))
             corev1.zeroSecret s1 = (o, Some e, s2))
  \/ (exists svc s1 cred s2 o s3,
        getService c Background (nsName namespace (name +:+ "-es-http"))
          corev1.zeroService s = (svc, None, s1)
        /\ getSecret c Background
             (nsName namespace (name +:+ "-es-elastic-user"))
             corev1.zeroSecret s1 = (cred, None, s2)
        /\ getSecret c Background
             (nsName namespace (name +:+ "-es-http-certs-public"))
             cred s2 = (o, Some e, s3)).
Proof.
  destruct (run_stops c namespace name s); cbn; intros [= <- <-].
  - do 3 right. left. eauto.
  - left. eauto.
  - right. left. reflexivity.
  - do 4 right. left. eauto 10.
  - do 2 right. left. reflexivity.
  - do 5 right. eauto 12.
Qed.

Lemma client_errors_unwrapped_witness :
  exists o s1,
    getService dirClient Background (nsName "ns-a" "cluster-a-es-http")
      corev1.zeroService fixtures.missingService
    = (o, Some (NotFound KService "cluster-a-es-http"), s1).
Proof.
  destruct (client_errors_unwrapped dirClient fixtures.missingService
              "ns-a" "cluster-a" elasticsearch.zeroConfig
              (NotFound KService "cluster-a-es-http"))
    as [(n & _ & H) | [H | [H | [H | [H | H]]]]].
  - vm_compute. reflexivity.
  - discriminate H.
  - discriminate H.
  - discriminate H.
  - exact H.
  - exfalso. destruct H as (svc & s1 & o & s2 & H & _).
    vm_compute in H. discriminate H.
  - exfalso. destruct H as (svc & s1 & cred & s2 & o & s3 & H & _).
    vm_compute in H. discriminate H.
Defined.

(** X11: against any client, a successful resolution has made all three
    fetches and returns exactly one address and the username
    ["elastic"]. *)
Theorem success_shape {S : Type} (c : Client S) (s : S)
    (namespace name : string) (cfg : elasticsearch.Config) :
  result (run c (utils.ResolveEsConfigFromk8s namespace name) s) = (cfg, None) ->
  length (elasticsearch.Addresses cfg) = 1
  /\ elasticsearch.Username cfg = "elastic"
  /\ trace (run c (utils.ResolveEsConfigFromk8s namespace name) s)
     = [endpointCall namespace name; credentialCall namespace name;
        trustCall namespace name].
Proof.
  destruct (run_stops c namespace name s); cbn; try discriminate.
  intros [= <-]. repeat split; reflexivity.
Qed.

Lemma success_shape_witness :
  length (elasticsearch.Addresses
            (fst (result (Resolve fixtures.happy "ns-a" "cluster-a")))) = 1.
Proof.
  refine (proj1 (success_shape dirClient fixtures.happy "ns-a" "cluster-a" _ _)).
  vm_compute. reflexivity.
Defined.

(** ** The derived names *)

Lemma append_cons (a : ascii) (s t : string) :
  String a s +:+ t = String a (s +:+ t).
Proof. reflexivity. Qed.

Lemma append_length (s t : string) :
  String.length (s +:+ t) = String.length s + String.length t.
Proof.
  induction s as [|a s IH]; [reflexivity|].
  rewrite append_cons. cbn [String.length]. now rewrite IH.
Qed.

Lemma append_cancel_r (suffix a b : string) :
  a +:+ suffix = b +:+ suffix -> a = b.
Proof.
  revert b. induction a as [|x a IH]; intros [|y b] H.
  - reflexivity.
  - apply (f_equal String.length) in H.
    rewrite !append_length in H. cbn [String.length] in H. lia.
  - apply (f_equal String.length) in H.
    rewrite !append_length in H. cbn [String.length] in H. lia.
  - rewrite !append_cons in H. injection H as -> H.
    f_equal. now apply IH.
Qed.

Lemma lastChar_append (a s : string) :
  s <> "" -> lastChar (a +:+ s) = lastChar s.
Proof.
  intros Hs. induction a as [|x a IH]; [reflexivity|].
  rewrite append_cons. cbn [lastChar].
  destruct (a +:+ s) as [|y t] eqn:E; [|exact IH].
  destruct a; [contradiction | discriminate E].
Qed.

(** X12: the names the function derives keep clusters and secrets apart:
    the credential name of one cluster is never the trust name of
    another (or of the same) cluster, and two different cluster names
    give different endpoint, credential and trust names. *)
Theorem derived_names_distinct (a b : string) :
  Sprintf "%s-es-elastic-user" [ArgStr a]
    <> Sprintf "%s-es-http-certs-public" [ArgStr b]
  /\ (a <> b ->
      Sprintf "%s-es-http" [ArgStr a] <> Sprintf "%s-es-http" [ArgStr b]
      /\ Sprintf "%s-es-elastic-user" [ArgStr a]
         <> Sprintf "%s-es-elastic-user" [ArgStr b]
      /\ Sprintf "%s-es-http-certs-public" [ArgStr a]
         <> Sprintf "%s-es-http-certs-public" [ArgStr b]).
Proof.
  rewrite !Sprintf_endpointName, !Sprintf_credentialName, !Sprintf_trustName.
  unfold endpointName, credentialName, trustName. split.
  - intros H. apply (f_equal lastChar) in H.
    rewrite !lastChar_append in H by discriminate. discriminate H.
  - intros Hab. repeat split; intros H; apply Hab;
      eapply append_cancel_r; exact H.
Qed.

Lemma derived_names_distinct_witness :
  Sprintf "%s-es-http" [ArgStr "cluster-a"]
  <> Sprintf "%s-es-http" [ArgStr "cluster-a-es-http"].
Proof.
  refine (proj1 (proj2 (derived_names_distinct "cluster-a" "cluster-a-es-http") _)).
  discriminate.
Defined.

(** ** The test table *)


(** * Properties of [NewK8sClient] *)

Ltac boot_step H := rewrite H; cbn [boot.run boot.logged boot.result boot.final boot.events].

Section Boot.

Context {RestConfig K S : Type} (h : boot.Host RestConfig K S).
Variables (kubeconfigPath : string) (s : S).

Local Abbreviation options := {| boot.Scheme := Some boot.scheme_Scheme |}.
Local Abbreviation Boot := (boot.run h (boot.NewK8sClient kubeconfigPath) s).
Local Abbreviation evSetenv := (boot.EvSetenv "KUBECONFIG" kubeconfigPath).

Lemma boot_setenv_error e s1 :
  boot.setenv h "KUBECONFIG" kubeconfigPath s = (Some e, s1) ->
  Boot = {| boot.result := boot.Returned (None, Some e);
            boot.final := s1;
            boot.events := [evSetenv] |}.
Proof.
  intros H. unfold boot.NewK8sClient. cbn [boot.run]. boot_step H.
  reflexivity.
Qed.

Lemma boot_getConfig_error s1 cfg e s2 :
  boot.setenv h "KUBECONFIG" kubeconfigPath s = (None, s1) ->
  boot.getConfig h s1 = (cfg, Some e, s2) ->
  Boot = {| boot.result := boot.Returned (None, Some e);
            boot.final := s2;
            boot.events := [evSetenv; boot.EvGetConfig] |}.
Proof.
  intros H1 H2. unfold boot.NewK8sClient. cbn [boot.run].
  boot_step H1. boot_step H2. reflexivity.
Qed.

Lemma boot_new_error s1 cfg s2 c e s3 :
  boot.setenv h "KUBECONFIG" kubeconfigPath s = (None, s1) ->
  boot.getConfig h s1 = (cfg, None, s2) ->
  boot.new h cfg options s2 = (c, Some e, s3) ->
  Boot = {| boot.result := boot.Returned (None, Some e);
            boot.final := s3;
            boot.events := [evSetenv; boot.EvGetConfig; boot.EvNew cfg options] |}.
Proof.
  intros H1 H2 H3. unfold boot.NewK8sClient. cbn [boot.run].
  boot_step H1. boot_step H2. boot_step H3. reflexivity.
Qed.

Lemma boot_new_nil s1 cfg s2 s3 :
  boot.setenv h "KUBECONFIG" kubeconfigPath s = (None, s1) ->
  boot.getConfig h s1 = (cfg, None, s2) ->
  boot.new h cfg options s2 = (None, None, s3) ->
  Boot = {| boot.result := boot.Panicked;
            boot.final := s3;
            boot.events := [evSetenv; boot.EvGetConfig; boot.EvNew cfg options] |}.
Proof.
  intros H1 H2 H3. unfold boot.NewK8sClient. cbn [boot.run].
  boot_step H1. boot_step H2. boot_step H3. reflexivity.
Qed.

Lemma boot_list_error s1 cfg s2 c s3 l e s4 :
  boot.setenv h "KUBECONFIG" kubeconfigPath s = (None, s1) ->
  boot.getConfig h s1 = (cfg, None, s2) ->
  boot.new h cfg options s2 = (Some c, None, s3) ->
  boot.listSecrets h c Background s3 = (l, Some e, s4) ->
  Boot = {| boot.result := boot.Returned (None, Some e);
            boot.final := s4;
            boot.events := boot.fullEvents kubeconfigPath cfg c |}.
Proof.
  intros H1 H2 H3 H4. unfold boot.NewK8sClient. cbn [boot.run].
  boot_step H1. boot_step H2. boot_step H3. boot_step H4. reflexivity.
Qed.

Lemma boot_success s1 cfg s2 c s3 l s4 :
  boot.setenv h "KUBECONFIG" kubeconfigPath s = (None, s1) ->
  boot.getConfig h s1 = (cfg, None, s2) ->
  boot.new h cfg options s2 = (Some c, None, s3) ->
  boot.listSecrets h c Background s3 = (l, None, s4) ->
  Boot = {| boot.result := boot.Returned (Some c, None);
            boot.final := s4;
            boot.events := boot.fullEvents kubeconfigPath cfg c |}.
Proof.
  intros H1 H2 H3 H4. unfold boot.NewK8sClient. cbn [boot.run].
  boot_step H1. boot_step H2. boot_step H3. boot_step H4. reflexivity.
Qed.

End Boot.

Lemma boot_ends {RestConfig K S : Type} (h : boot.Host RestConfig K S)
    (kubeconfigPath : string) (s : S) :
  boot.ends h kubeconfigPath s
    (boot.run h (boot.NewK8sClient kubeconfigPath) s).
Proof.
  destruct (boot.setenv h "KUBECONFIG" kubeconfigPath s) as [[e|] s1] eqn:H1.
  { erewrite boot_setenv_error by eassumption. econstructor; eassumption. }
  destruct (boot.getConfig h s1) as [[cfg [e|]] s2] eqn:H2.
  { erewrite boot_getConfig_error by eassumption. econstructor; eassumption. }
  destruct (boot.new h cfg {| boot.Scheme := Some boot.scheme_Scheme |} s2)
    as [[c [e|]] s3] eqn:H3.
  { erewrite boot_new_error by eassumption. econstructor; eassumption. }
  destruct c as [c|].
  2: { erewrite boot_new_nil by eassumption. econstructor; eassumption. }
  destruct (boot.listSecrets h c Background s3) as [[l [e|]] s4] eqn:H4.
  { erewrite boot_list_error by eassumption. econstructor; eassumption. }
  erewrite boot_success by eassumption. econstructor; eassumption.
Qed.



(** X15: a client is returned exactly when the four steps all answer
    without error: the environment variable is set, the configuration
    loads, the constructor gives a client, and listing secrets with that
    client works. The client returned is the one the constructor gave,
    built from the loaded configuration with the client-go scheme, and
    the four calls were made in that order, the listing with
    [context.Background()]. *)
Theorem NewK8sClient_success_iff {RestConfig K S : Type}
    (h : boot.Host RestConfig K S) (kubeconfigPath : string) (s : S) (c : K) :
  boot.result (boot.run h (boot.NewK8sClient kubeconfigPath) s)
    = boot.Returned (Some c, None)
  <-> exists s1 cfg s2 s3 l s4,
        boot.setenv h "KUBECONFIG" kubeconfigPath s = (None, s1)
        /\ boot.getConfig h s1 = (cfg, None, s2)
        /\ boot.new h cfg {| boot.Scheme := Some boot.scheme_Scheme |} s2
           = (Some c, None, s3)
        /\ boot.listSecrets h c Background s3 = (l, None, s4)
        /\ boot.events (boot.run h (boot.NewK8sClient kubeconfigPath) s)
           = [boot.EvSetenv "KUBECONFIG" kubeconfigPath; boot.EvGetConfig;
              boot.EvNew cfg {| boot.Scheme := Some boot.scheme_Scheme |};
              boot.EvList c Background].
Proof.
  split.
  - destruct (boot_ends h kubeconfigPath s)
      as [ | | | | | s1 cfg s2 c' s3 l s4 H1 H2 H3 H4 ];
      cbn; intros [= <-].
    exists s1, cfg, s2, s3, l, s4. auto 10.
  - intros (s1 & cfg & s2 & s3 & l & s4 & H1 & H2 & H3 & H4 & _).
    erewrite boot_success by eassumption. reflexivity.
Qed.

Lemma NewK8sClient_success_iff_witness :
  boot.result (boot.run (boot.exampleHost boot.exampleFiles)
                 (boot.NewK8sClient "/kube/good") None)
  = boot.Returned (Some "/kube/good", None).
Proof.
  apply (proj2 (NewK8sClient_success_iff (boot.exampleHost boot.exampleFiles)
                  "/kube/good" None "/kube/good")).
  exists (Some "/kube/good"), "/kube/good", (Some "/kube/good"),
    (Some "/kube/good"), [], (Some "/kube/good").
  repeat split; vm_compute; reflexivity.
Defined.

(** X16: the first step that answers an error ends the call: that error
    is returned as it is, with a nil client, and no later step is made.
    This holds for the environment, the configuration, the constructor
    (whose client, if any, is dropped) and the listing (after which the
    client just built is dropped). *)
Theorem NewK8sClient_short_circuit {RestConfig K S : Type}
    (h : boot.Host RestConfig K S) (kubeconfigPath : string) (s : S) :
  (forall e s1,
     boot.setenv h "KUBECONFIG" kubeconfigPath s = (Some e, s1) ->
     boot.run h (boot.NewK8sClient kubeconfigPath) s
     = {| boot.result := boot.Returned (None, Some e);
          boot.final := s1;
          boot.events := [boot.EvSetenv "KUBECONFIG" kubeconfigPath] |})
  /\ (forall s1 cfg e s2,
        boot.setenv h "KUBECONFIG" kubeconfigPath s = (None, s1) ->
        boot.getConfig h s1 = (cfg, Some e, s2) ->
        boot.run h (boot.NewK8sClient kubeconfigPath) s
        = {| boot.result := boot.Returned (None, Some e);
             boot.final := s2;
             boot.events := [boot.EvSetenv "KUBECONFIG" kubeconfigPath;
                             boot.EvGetConfig] |})
  /\ (forall s1 cfg s2 c e s3,
        boot.setenv h "KUBECONFIG" kubeconfigPath s = (None, s1) ->
        boot.getConfig h s1 = (cfg, None, s2) ->
        boot.new h cfg {| boot.Scheme := Some boot.scheme_Scheme |} s2
          = (c, Some e, s3) ->
        boot.run h (boot.NewK8sClient kubeconfigPath) s
        = {| boot.result := boot.Returned (None, Some e);
             boot.final := s3;
             boot.events :=
               [boot.EvSetenv "KUBECONFIG" kubeconfigPath; boot.EvGetConfig;
                boot.EvNew cfg {| boot.Scheme := Some boot.scheme_Scheme |}] |})
  /\ (forall s1 cfg s2 c s3 l e s4,
        boot.setenv h "KUBECONFIG" kubeconfigPath s = (None, s1) ->
        boot.getConfig h s1 = (cfg, None, s2) ->
        boot.new h cfg {| boot.Scheme := Some boot.scheme_Scheme |} s2
          = (Some c, None, s3) ->
        boot.listSecrets h c Background s3 = (l, Some e, s4) ->
        boot.run h (boot.NewK8sClient kubeconfigPath) s
        = {| boot.result := boot.Returned (None, Some e);
             boot.final := s4;
             boot.events :=
               [boot.EvSetenv "KUBECONFIG" kubeconfigPath; boot.EvGetConfig;
                boot.EvNew cfg {| boot.Scheme := Some boot.scheme_Scheme |};
                boot.EvList c Background] |}).
Proof.
  repeat split; intros.
  - now apply boot_setenv_error.
  - now apply boot_getConfig_error with (s1 := s1) (cfg := cfg).
  - now apply boot_new_error with (s1 := s1) (s2 := s2) (c := c).
  - now apply boot_list_error with (s1 := s1) (s2 := s2) (s3 := s3) (l := l).
Qed.

Lemma NewK8sClient_short_circuit_witness :
  boot.run (boot.exampleHost boot.exampleFiles)
    (boot.NewK8sClient "/kube/missing") None
  = {| boot.result := boot.Returned (None, Some (ClientError "no such file"));
       boot.final := Some "/kube/missing";
       boot.events := [boot.EvSetenv "KUBECONFIG" "/kube/missing";
                       boot.EvGetConfig] |}.
Proof.
  apply (proj1 (proj2 (NewK8sClient_short_circuit
                         (boot.exampleHost boot.exampleFiles)
                         "/kube/missing" None))
           (Some "/kube/missing") "/kube/missing").
  - vm_compute. reflexivity.
  - vm_compute. reflexivity.
Defined.

